(** * Kaiterra REST API examples: request signing and response handling

    A shallow embedding of the three example scripts
    [examples/restv1-auth.py], [examples/restv1-hmac.py] and
    [examples/restv1-apikey.py].

    Python values are modelled as follows:
    - [bytes] objects are lists of [Byte.byte];
    - [str] objects are lists of Unicode code points ([N]);
    - a [dict] is an insertion-ordered association list, living in a heap
      of objects addressed by location, so that aliasing (and in particular
      the default-argument dictionaries) is visible;
    - raising is the [Raise] constructor of [result];
    - everything that touches the clock, the network, the console or a
      dictionary object runs in the state-and-error monad [M]. *)

From Stdlib Require Import ZArith NArith List Lia Bool.
From Stdlib.Strings Require Import String Ascii Byte.
From Stdlib Require Import SpecFloat.
From stdpp Require Import base option list gmap.
Import ListNotations.

Local Open Scope Z_scope.

(* ===================================================================== *)
(** ** Python values and exceptions *)
(* ===================================================================== *)

Definition bytes := list byte.
Definition str := list N.

(** A string literal of the scripts, as a [str]: every character of an
    ASCII literal is its own code point. *)
Definition u (s : string) : str :=
  map N_of_ascii (list_ascii_of_string s).

(** A bytes literal [b'...'] with ASCII content. *)
Definition b_lit (s : string) : bytes :=
  map byte_of_ascii (list_ascii_of_string s).

Definition byte_val (b : byte) : Z := Z.of_N (Byte.to_N b).

Inductive exn : Type :=
| ValueError (what : string)
| UnicodeEncodeError (codec : string)
| UnicodeDecodeError (codec : string)
| UnboundLocalError (var : string)
| KeyError (key : str)
| TypeError (what : string)
| AttributeError (what : string)
| JSONDecodeError
| ConnectionError
| HTTPError (status_code : Z) (content : bytes)
| Exception (message : str).

Inductive result (A : Type) : Type :=
| Ok (a : A)
| Raise (e : exn).
Arguments Ok {A} a.
Arguments Raise {A} e.

Definition rbind {A B} (r : result A) (k : A -> result B) : result B :=
  match r with
  | Ok a => k a
  | Raise e => Raise e
  end.

Declare Scope result_scope.
Delimit Scope result_scope with result.
Notation "x <-? r ; k" := (rbind r (fun x => k))
  (at level 100, r at next level, right associativity) : result_scope.

(** [bytes(iterable_of_ints)]: every item must be in [range(256)]. *)
Definition int_to_byte (z : Z) : result byte :=
  if (0 <=? z) && (z <? 256)
  then match Byte.of_N (Z.to_N z) with
       | Some b => Ok b
       | None => Raise (ValueError "bytes must be in range(0, 256)")
       end
  else Raise (ValueError "bytes must be in range(0, 256)").

Fixpoint py_bytes (ints : list Z) : result bytes :=
  match ints with
  | [] => Ok []
  | z :: rest =>
      match int_to_byte z with
      | Ok b => match py_bytes rest with
                | Ok bs => Ok (b :: bs)
                | Raise e => Raise e
                end
      | Raise e => Raise e
      end
  end.

(* ===================================================================== *)
(** ** [hashlib.sha256] (FIPS 180-4), the digest the scripts call *)
(* ===================================================================== *)

Module SHA256.

Definition mask32 (x : Z) : Z := x mod 2 ^ 32.
Definition add32 (x y : Z) : Z := mask32 (x + y).
Definition rotr (n x : Z) : Z :=
  Z.lor (Z.shiftr x n) (mask32 (Z.shiftl x (32 - n))).
Definition shr (n x : Z) : Z := Z.shiftr x n.
Definition not32 (x : Z) : Z := Z.lxor x (2 ^ 32 - 1).

Definition Ch (x y z : Z) : Z := Z.lxor (Z.land x y) (Z.land (not32 x) z).
Definition Maj (x y z : Z) : Z :=
  Z.lxor (Z.lxor (Z.land x y) (Z.land x z)) (Z.land y z).
Definition Sigma0 (x : Z) : Z :=
  Z.lxor (Z.lxor (rotr 2 x) (rotr 13 x)) (rotr 22 x).
Definition Sigma1 (x : Z) : Z :=
  Z.lxor (Z.lxor (rotr 6 x) (rotr 11 x)) (rotr 25 x).
Definition sigma0 (x : Z) : Z :=
  Z.lxor (Z.lxor (rotr 7 x) (rotr 18 x)) (shr 3 x).
Definition sigma1 (x : Z) : Z :=
  Z.lxor (Z.lxor (rotr 17 x) (rotr 19 x)) (shr 10 x).

(** The constants are not tabulated but derived as the standard defines
    them: the first 32 bits of the fractional parts of the cube roots
    (round constants) and of the square roots (initial chaining value)
    of the first primes. *)
Definition is_prime (n : Z) : bool :=
  (1 <? n)
  && forallb (fun d => negb (n mod Z.of_nat d =? 0))
             (seq 2 (Z.to_nat n - 2)).

Fixpoint primes_from (fuel : nat) (n : Z) (count : nat) : list Z :=
  match fuel, count with
  | S fuel', S count' =>
      if is_prime n then n :: primes_from fuel' (n + 1) count'
      else primes_from fuel' (n + 1) count
  | _, _ => []
  end.

(** The largest [r] below [2 ^ bits] with [r ^ k <= n], bit by bit. *)
Fixpoint int_root (k n : Z) (bits : nat) (r : Z) : Z :=
  match bits with
  | O => r
  | S bits' =>
      let r' := r + 2 ^ Z.of_nat bits' in
      int_root k n bits' (if r' ^ k <=? n then r' else r)
  end.

Definition frac_root (k p : Z) : Z :=
  mask32 (int_root k (p * 2 ^ (32 * k)) 40 0).

Definition K : list Z :=
  Eval vm_compute in map (frac_root 3) (primes_from 400 2 64).

(** The eight chaining words. *)
Record regs : Type := Regs {
  ra : Z; rb : Z; rc : Z; rd : Z; re : Z; rf : Z; rg : Z; rh : Z }.

Definition regs_of_list (l : list Z) : regs :=
  match l with
  | [a; b; c; d; e; f; g; h] => Regs a b c d e f g h
  | _ => Regs 0 0 0 0 0 0 0 0
  end.

Definition init : regs :=
  Eval vm_compute in regs_of_list (map (frac_root 2) (primes_from 400 2 8)).

(** Big-endian packing of bytes into 32-bit words and back. *)
Fixpoint be_words (bs : bytes) : list Z :=
  match bs with
  | b0 :: b1 :: b2 :: b3 :: rest =>
      (byte_val b0 * 2 ^ 24 + byte_val b1 * 2 ^ 16
       + byte_val b2 * 2 ^ 8 + byte_val b3) :: be_words rest
  | _ => []
  end.

Definition low_byte (z : Z) : byte :=
  match Byte.of_N (Z.to_N (z mod 256)) with
  | Some b => b
  | None => x00
  end.

Definition word_bytes (w : Z) : bytes :=
  [ low_byte (Z.shiftr w 24); low_byte (Z.shiftr w 16);
    low_byte (Z.shiftr w 8); low_byte w ].

(** Padding: a 1 bit, zero bits up to 448 mod 512, then the bit length
    on 64 bits. *)
Definition bitlen_bytes (n : Z) : bytes :=
  word_bytes (Z.shiftr (n mod 2 ^ 64) 32) ++ word_bytes (mask32 n).

Definition pad (msg : bytes) : bytes :=
  let len := Z.of_nat (length msg) in
  msg ++ x80 :: repeat x00 (Z.to_nat ((55 - len) mod 64))
      ++ bitlen_bytes (8 * len).

(** Message schedule: [win] holds the last sixteen words, oldest
    first; [n] more words are produced. *)
Fixpoint extend (n : nat) (win : list Z) : list Z :=
  match n with
  | O => []
  | S n' =>
      let w :=
        add32 (add32 (add32 (sigma1 (nth 14 win 0)) (nth 9 win 0))
                     (sigma0 (nth 1 win 0)))
              (nth 0 win 0) in
      w :: extend n' (tl win ++ [w])
  end.

Definition schedule (block : list Z) : list Z :=
  block ++ extend 48 block.

Definition round (s : regs) (kw : Z * Z) : regs :=
  let t1 := add32 (add32 (add32 (add32 (rh s) (Sigma1 (re s)))
                                (Ch (re s) (rf s) (rg s)))
                         (fst kw))
                  (snd kw) in
  let t2 := add32 (Sigma0 (ra s)) (Maj (ra s) (rb s) (rc s)) in
  Regs (add32 t1 t2) (ra s) (rb s) (rc s)
       (add32 (rd s) t1) (re s) (rf s) (rg s).

Definition compress (h : regs) (block : bytes) : regs :=
  let s := fold_left round (combine K (schedule (be_words block))) h in
  Regs (add32 (ra h) (ra s)) (add32 (rb h) (rb s))
       (add32 (rc h) (rc s)) (add32 (rd h) (rd s))
       (add32 (re h) (re s)) (add32 (rf h) (rf s))
       (add32 (rg h) (rg s)) (add32 (rh h) (rh s)).

Fixpoint absorb (nblocks : nat) (h : regs) (bs : bytes) : regs :=
  match nblocks with
  | O => h
  | S n => absorb n (compress h (firstn 64 bs)) (skipn 64 bs)
  end.

Definition output (h : regs) : bytes :=
  word_bytes (ra h) ++ word_bytes (rb h) ++ word_bytes (rc h)
  ++ word_bytes (rd h) ++ word_bytes (re h) ++ word_bytes (rf h)
  ++ word_bytes (rg h) ++ word_bytes (rh h).

Definition digest (msg : bytes) : bytes :=
  let p := pad msg in
  output (absorb (length p / 64)%nat init p).

Definition block_size : nat := 64.
Definition digest_size : nat := 32.

End SHA256.

(** Lower-case hexadecimal rendering of a byte string ([bytes.hex()]),
    used to compare digests with published vectors. *)
Definition hex_digit (n : Z) : ascii :=
  if n <? 10 then ascii_of_N (Z.to_N (48 + n))
  else ascii_of_N (Z.to_N (87 + n)).

Fixpoint hex_of_bytes (bs : bytes) : string :=
  match bs with
  | [] => EmptyString
  | b :: rest =>
      String (hex_digit (byte_val b / 16))
        (String (hex_digit (byte_val b mod 16)) (hex_of_bytes rest))
  end.

(* ===================================================================== *)
(** ** The [hmac] function

    The same text in [restv1-auth.py] (lines 48-68) and [restv1-hmac.py]
    (lines 26-46). *)
(* ===================================================================== *)

(** [hashlib.sha256(msg)]: the hash object, of which the scripts use
    [.digest()] and [.block_size]. *)
Record HashObj : Type := { digest : bytes; block_size : nat }.

Definition hashlib_sha256 (msg : bytes) : HashObj :=
  {| digest := SHA256.digest msg; block_size := SHA256.block_size |}.

Definition hasher (msg : bytes) : HashObj := hashlib_sha256 msg.

Definition hash (msg : bytes) : bytes := digest (hasher msg).

Local Open Scope result_scope.

Definition hmac (key message : bytes) : result bytes :=
  let blocksize := block_size (hasher []) in
  let key := if (blocksize <? length key)%nat then hash key else key in
  key <-? (if (length key <? blocksize)%nat
           then zeros <-? py_bytes (map (fun _ => 0)
                                        (seq 0 (blocksize - length key)));
                Ok (key ++ zeros)
           else Ok key);
  o_key_pad <-? py_bytes (map (fun b => Z.lxor 0x5c (byte_val b)) key);
  i_key_pad <-? py_bytes (map (fun b => Z.lxor 0x36 (byte_val b)) key);
  Ok (hash (o_key_pad ++ hash (i_key_pad ++ message))).

(** *** The construction as the specification words it

    Section 4.2: "1. If len(secret) > 64, replace secret with
    SHA256(secret).  2. If len(secret) < 64, right-pad secret with zero
    bytes to 64 bytes.  3. inner = SHA256((secret XOR 0x36-repeated) ||
    message).  4. signature = SHA256((secret XOR 0x5c-repeated) || inner)". *)

Definition byte_xor (a b : byte) : byte :=
  let '(a0, (a1, (a2, (a3, (a4, (a5, (a6, a7))))))) := Byte.to_bits a in
  let '(b0, (b1, (b2, (b3, (b4, (b5, (b6, b7))))))) := Byte.to_bits b in
  Byte.of_bits (xorb a0 b0, (xorb a1 b1, (xorb a2 b2, (xorb a3 b3,
               (xorb a4 b4, (xorb a5 b5, (xorb a6 b6, xorb a7 b7))))))).

(** Position-wise XOR of two byte strings. *)
Fixpoint xor_bytes (xs ys : bytes) : bytes :=
  match xs, ys with
  | x :: xs', y :: ys' => byte_xor x y :: xor_bytes xs' ys'
  | _, _ => []
  end.

Definition spec_step1 (secret : bytes) : bytes :=
  if (64 <? length secret)%nat then SHA256.digest secret else secret.

Definition spec_step2 (secret : bytes) : bytes :=
  if (length secret <? 64)%nat
  then secret ++ repeat x00 (64 - length secret)
  else secret.

Definition spec_inner (secret message : bytes) : bytes :=
  SHA256.digest (xor_bytes secret (repeat x36 64) ++ message).

Definition spec_signature (secret inner : bytes) : bytes :=
  SHA256.digest (xor_bytes secret (repeat x5c 64) ++ inner).

Definition spec_hmac (secret message : bytes) : bytes :=
  let secret := spec_step2 (spec_step1 secret) in
  spec_signature secret (spec_inner secret message).

(* ===================================================================== *)
(** ** Library functions the scripts call on strings and bytes *)
(* ===================================================================== *)

(** ['{:x}'.format(n)]: lower-case hexadecimal, a minus sign for a
    negative integer. *)
Definition hex_char (d : Z) : N :=
  if d <? 10 then Z.to_N (48 + d) else Z.to_N (87 + d).

Fixpoint hex_digits (fuel : nat) (n : Z) (acc : str) : str :=
  match fuel with
  | O => acc
  | S fuel' =>
      if n <? 16 then hex_char n :: acc
      else hex_digits fuel' (n / 16) (hex_char (n mod 16) :: acc)
  end.

Definition format_x (n : Z) : str :=
  if n <? 0
  then 45%N :: hex_digits (S (Z.to_nat (Z.log2 (- n)))) (- n) []
  else hex_digits (S (Z.to_nat (Z.log2 n))) n [].

(** [s.encode('ascii')]. *)
Definition ascii_byte (c : N) : result byte :=
  if (c <? 128)%N
  then match Byte.of_N c with
       | Some b => Ok b
       | None => Raise (UnicodeEncodeError "ascii")
       end
  else Raise (UnicodeEncodeError "ascii").

Fixpoint encode_ascii (s : str) : result bytes :=
  match s with
  | [] => Ok []
  | c :: rest =>
      b <-? ascii_byte c;
      bs <-? encode_ascii rest;
      Ok (b :: bs)
  end.

(** [s.encode('utf-8')], strict: a surrogate code point cannot be
    encoded. *)
Definition nbyte (n : N) : byte :=
  match Byte.of_N (n mod 256) with
  | Some b => b
  | None => x00
  end.

Definition utf8_char (c : N) : result bytes :=
  if (c <? 0x80)%N then Ok [nbyte c]
  else if (c <? 0x800)%N then
    Ok [nbyte (0xC0 + c / 64); nbyte (0x80 + c mod 64)]
  else if (0xD800 <=? c)%N && (c <? 0xE000)%N then
    Raise (UnicodeEncodeError "utf-8")
  else if (c <? 0x10000)%N then
    Ok [nbyte (0xE0 + c / 4096); nbyte (0x80 + (c / 64) mod 64);
        nbyte (0x80 + c mod 64)]
  else if (c <? 0x110000)%N then
    Ok [nbyte (0xF0 + c / 262144); nbyte (0x80 + (c / 4096) mod 64);
        nbyte (0x80 + (c / 64) mod 64); nbyte (0x80 + c mod 64)]
  else Raise (UnicodeEncodeError "utf-8").

Fixpoint encode_utf8 (s : str) : result bytes :=
  match s with
  | [] => Ok []
  | c :: rest =>
      bs <-? utf8_char c;
      more <-? encode_utf8 rest;
      Ok (bs ++ more)
  end.

(** [b.decode('utf-8')], strict: shortest forms only, no surrogates,
    nothing above U+10FFFF. *)
Definition bv (b : byte) : N := Byte.to_N b.

Definition cont (b : byte) : bool := (0x80 <=? bv b)%N && (bv b <? 0xC0)%N.

Definition low6 (b : byte) : N := (bv b mod 64)%N.

Fixpoint decode_utf8 (bs : bytes) : result str :=
  match bs with
  | [] => Ok []
  | b0 :: t0 =>
      if (bv b0 <? 0x80)%N then
        s <-? decode_utf8 t0; Ok (bv b0 :: s)
      else if (0xC2 <=? bv b0)%N && (bv b0 <? 0xE0)%N then
        match t0 with
        | b1 :: t1 =>
            if cont b1 then
              s <-? decode_utf8 t1;
              Ok (((bv b0 - 0xC0) * 64 + low6 b1)%N :: s)
            else Raise (UnicodeDecodeError "utf-8")
        | _ => Raise (UnicodeDecodeError "utf-8")
        end
      else if (0xE0 <=? bv b0)%N && (bv b0 <? 0xF0)%N then
        match t0 with
        | b1 :: b2 :: t2 =>
            if cont b1 && cont b2
               && negb ((bv b0 =? 0xE0)%N && (bv b1 <? 0xA0)%N)
               && negb ((bv b0 =? 0xED)%N && (0xA0 <=? bv b1)%N) then
              s <-? decode_utf8 t2;
              Ok (((bv b0 - 0xE0) * 4096 + low6 b1 * 64 + low6 b2)%N :: s)
            else Raise (UnicodeDecodeError "utf-8")
        | _ => Raise (UnicodeDecodeError "utf-8")
        end
      else if (0xF0 <=? bv b0)%N && (bv b0 <? 0xF5)%N then
        match t0 with
        | b1 :: b2 :: b3 :: t3 =>
            if cont b1 && cont b2 && cont b3
               && negb ((bv b0 =? 0xF0)%N && (bv b1 <? 0x90)%N)
               && negb ((bv b0 =? 0xF4)%N && (0x90 <=? bv b1)%N) then
              s <-? decode_utf8 t3;
              Ok (((bv b0 - 0xF0) * 262144 + low6 b1 * 4096
                   + low6 b2 * 64 + low6 b3)%N :: s)
            else Raise (UnicodeDecodeError "utf-8")
        | _ => Raise (UnicodeDecodeError "utf-8")
        end
      else Raise (UnicodeDecodeError "utf-8")
  end.

(** [bytearray.fromhex(text)]: ASCII white space is skipped between
    byte pairs, every byte is two hexadecimal digits. *)
Definition is_space (c : N) : bool :=
  ((c =? 32) || ((9 <=? c) && (c <=? 13)))%N.

Definition hex_value (c : N) : option N :=
  if (48 <=? c)%N && (c <=? 57)%N then Some (c - 48)%N
  else if (97 <=? c)%N && (c <=? 102)%N then Some (c - 87)%N
  else if (65 <=? c)%N && (c <=? 70)%N then Some (c - 55)%N
  else None.

Fixpoint fromhex (s : str) : result bytes :=
  match s with
  | [] => Ok []
  | c :: rest =>
      if is_space c then fromhex rest
      else
        match hex_value c, rest with
        | Some top, d :: rest' =>
            match hex_value d with
            | Some bot =>
                bs <-? fromhex rest';
                Ok (nbyte (16 * top + bot) :: bs)
            | None =>
                Raise (ValueError "non-hexadecimal number found in fromhex() arg")
            end
        | _, _ =>
            Raise (ValueError "non-hexadecimal number found in fromhex() arg")
        end
  end.

(** [base64.b64encode(b)]: standard alphabet, [=] padding. *)
Definition b64_char (n : N) : byte :=
  nbyte (if (n <? 26) then 65 + n
         else if (n <? 52) then 71 + n
         else if (n <? 62) then n - 4
         else if (n =? 62) then 43 else 47)%N.

Fixpoint b64encode (bs : bytes) : bytes :=
  match bs with
  | [] => []
  | [a] =>
      [ b64_char (bv a / 4); b64_char ((bv a mod 4) * 16); x3d; x3d ]
  | [a; b] =>
      [ b64_char (bv a / 4); b64_char ((bv a mod 4) * 16 + bv b / 16);
        b64_char ((bv b mod 16) * 4); x3d ]
  | a :: b :: c :: rest =>
      b64_char (bv a / 4)
      :: b64_char ((bv a mod 4) * 16 + bv b / 16)
      :: b64_char ((bv b mod 16) * 4 + bv c / 64)
      :: b64_char (bv c mod 64)
      :: b64encode rest
  end%N.

(** [s.strip(chars)] for a single character. *)
Fixpoint lstrip (c : N) (s : str) : str :=
  match s with
  | x :: rest => if (x =? c)%N then lstrip c rest else s
  | [] => []
  end.

Definition rstrip (c : N) (s : str) : str := rev (lstrip c (rev s)).

Definition strip (c : N) (s : str) : str := rstrip c (lstrip c s).

(** [sep.join(parts)]. *)
Fixpoint join (sep : str) (parts : list str) : str :=
  match parts with
  | [] => []
  | [p] => p
  | p :: rest => p ++ sep ++ join sep rest
  end.

(** *** [urllib.parse]: [quote_from_bytes], [quote_plus], [urlencode] *)

Definition always_safe (c : N) : bool :=
  (((65 <=? c) && (c <=? 90)) || ((97 <=? c) && (c <=? 122))
   || ((48 <=? c) && (c <=? 57))
   || (c =? 95) || (c =? 46) || (c =? 45) || (c =? 126))%N.

Definition hex_upper (d : N) : N :=
  (if d <? 10 then 48 + d else 55 + d)%N.

Definition quote_byte (safe : list N) (b : byte) : str :=
  if always_safe (bv b) || existsb (N.eqb (bv b)) safe
  then [bv b]
  else [37%N; hex_upper (bv b / 16); hex_upper (bv b mod 16)].

Definition quote_from_bytes (safe : list N) (bs : bytes) : str :=
  flat_map (quote_byte safe) bs.

Definition replace_char (old new : N) (s : str) : str :=
  map (fun c => if (c =? old)%N then new else c) s.

Definition quote_plus_bytes (bs : bytes) : str :=
  if existsb (fun b => (bv b =? 32)%N) bs
  then replace_char 32 43 (quote_from_bytes [32%N] bs)
  else quote_from_bytes [] bs.

(** *** Seconds of a [timedelta]

    [timedelta.total_seconds()] divides the whole number of microseconds
    by [10**6] with the true division of Python integers, which returns
    the binary64 number nearest to the quotient, ties to even; [int]
    then drops the fraction.  A [timedelta] holds fewer than [10**9]
    days, so the quotient, when not zero, is a normal binary64 number
    and neither overflow nor underflow arises. *)

(** The integer nearest to [num / den], ties to the even one. *)
Definition round_half_even (num den : Z) : Z :=
  let q := num / den in
  let r := num mod den in
  if (den <? 2 * r) || ((den =? 2 * r) && Z.odd q) then q + 1 else q.

(** [a / b] on two positive Python integers, as a mantissa of 53 bits
    and a binary exponent. *)
Definition true_divide (a b : Z) : Z * Z :=
  let la := Z.log2 a in
  let lb := Z.log2 b in
  let e := la - lb - (if a * 2 ^ lb <? b * 2 ^ la then 1 else 0) - 52 in
  (round_half_even (a * 2 ^ Z.max 0 (- e)) (b * 2 ^ Z.max 0 e), e).

(** [int(x)] on a float [m * 2 ^ e] that is not negative. *)
Definition int_of_float (x : Z * Z) : Z :=
  if 0 <=? snd x then fst x * 2 ^ snd x else fst x / 2 ^ (- snd x).

(** [int(delta.total_seconds())] for a [timedelta] of [us] microseconds. *)
Definition int_total_seconds (us : Z) : Z :=
  if us =? 0 then 0
  else Z.sgn us * int_of_float (true_divide (Z.abs us) 1000000).

(* ===================================================================== *)
(** ** Dictionaries, JSON values, the heap and the world *)
(* ===================================================================== *)

(** Values the scripts store in their [params] and [headers]
    dictionaries. *)
Inductive pyval : Type :=
| VStr (s : str)
| VBytes (b : bytes).

(** A [dict] keeps its keys in insertion order; assigning to a key that
    is present replaces the value where it stands. *)
Definition dict := list (str * pyval).

Fixpoint dict_get (k : str) (d : dict) : option pyval :=
  match d with
  | [] => None
  | (k', v) :: rest => if decide (k' = k) then Some v else dict_get k rest
  end.

Fixpoint dict_set (k : str) (v : pyval) (d : dict) : dict :=
  match d with
  | [] => [(k, v)]
  | (k', v') :: rest =>
      if decide (k' = k) then (k', v) :: rest
      else (k', v') :: dict_set k v rest
  end.

(** [d.update(other)]. *)
Definition dict_update (d other : dict) : dict :=
  fold_left (fun acc kv => dict_set (fst kv) (snd kv) acc) other d.

(** [repr] of a bytes object, which is what [str.format] shows for it. *)
Definition hex2 (n : N) : str :=
  [hex_char (Z.of_N (n / 16)); hex_char (Z.of_N (n mod 16))].

Definition repr_byte (quote : N) (b : byte) : str :=
  let c := bv b in
  if ((c =? quote) || (c =? 92))%N then [92%N; c]
  else if (c =? 9)%N then u "\t"
  else if (c =? 10)%N then u "\n"
  else if (c =? 13)%N then u "\r"
  else if ((c <? 32) || (127 <=? c))%N then u "\x" ++ hex2 c
  else [c].

Definition bytes_repr (b : bytes) : str :=
  let has q := existsb (fun x => (bv x =? q)%N) b in
  let quote := if has 39%N && negb (has 34%N) then 34%N else 39%N in
  98%N :: quote :: flat_map (repr_byte quote) b ++ [quote].

(** What ['{}'.format(v)] shows. *)
Definition format_value (v : pyval) : str :=
  match v with
  | VStr s => s
  | VBytes b => bytes_repr b
  end.

(** [quote_plus] on a [str] encodes it as UTF-8 first. *)
Definition quote_plus (v : pyval) : result str :=
  match v with
  | VStr s => bs <-? encode_utf8 s; Ok (quote_plus_bytes bs)
  | VBytes b => Ok (quote_plus_bytes b)
  end.

Fixpoint urlencode_items (query : dict) : result (list str) :=
  match query with
  | [] => Ok []
  | (k, v) :: rest =>
      k' <-? quote_plus (VStr k);
      v' <-? quote_plus v;
      l <-? urlencode_items rest;
      Ok ((k' ++ u "=" ++ v') :: l)
  end.

Definition urlencode (query : dict) : result str :=
  l <-? urlencode_items query;
  Ok (join (u "&") l).

(** What [json.loads] returns. *)
#[local] Set Warnings "-register-all".
Inductive json : Type :=
| JNull
| JBool (b : bool)
| JInt (n : Z)
| JFloat (f : spec_float)
| JStr (s : str)
| JList (items : list json)
| JDict (members : list (str * json)).

(** Truth value of an object in an [if]. *)
Definition truthy (v : json) : bool :=
  match v with
  | JNull => false
  | JBool b => b
  | JInt n => negb (n =? 0)
  | JFloat (S754_zero _) => false
  | JFloat _ => true
  | JStr s => negb (Nat.eqb (length s) 0)
  | JList l => negb (Nat.eqb (length l) 0)
  | JDict o => negb (Nat.eqb (length o) 0)
  end.

Fixpoint members_get (k : str) (o : list (str * json)) : option json :=
  match o with
  | [] => None
  | (k', v) :: rest => if decide (k' = k) then Some v else members_get k rest
  end.

(** [v.get(k)]: only a dict has the method; a missing key gives [None]. *)
Definition json_get (v : json) (k : str) : result json :=
  match v with
  | JDict o => Ok (default JNull (members_get k o))
  | _ => Raise (AttributeError "object has no attribute 'get'")
  end.

(** [v[k]] with a string key. *)
Definition json_subscript (v : json) (k : str) : result json :=
  match v with
  | JDict o =>
      match members_get k o with
      | Some x => Ok x
      | None => Raise (KeyError k)
      end
  | JStr _ | JList _ => Raise (TypeError "indices must be integers")
  | _ => Raise (TypeError "object is not subscriptable")
  end.

(** Dictionary objects are addressed by location. *)
Definition loc := positive.

Record HttpRequest : Type := {
  rq_verb : str;
  rq_url : str;
  rq_params : dict;
  rq_headers : dict;
  rq_data : bytes;
  rq_allow_redirects : bool }.

Record Response : Type := {
  status_code : Z;
  content : bytes }.

(** An argument of a [print(template.format(...))] call. *)
Inductive parg : Type :=
| PStr (s : str)
| PInt (n : Z)
| PBytes (b : bytes)
| PDict (d : dict)
| PJson (j : json).

(** The state a script runs in.  [clock] gives the successive readings
    of the system clock in microseconds since the epoch, [clock_reads]
    counts the readings taken so far; [transport] is the HTTP exchange
    done by [requests] and [sent] the requests handed to it, latest
    first; [console] is what was printed, latest first, one entry per
    [print] call: the template and the formatted arguments. *)
Record World : Type := {
  heap : gmap loc dict;
  clock : nat -> Z;
  clock_reads : nat;
  transport : HttpRequest -> result Response;
  sent : list HttpRequest;
  console : list (string * list parg) }.

Definition M (A : Type) : Type := World -> result A * World.

Definition ret {A} (a : A) : M A := fun w => (Ok a, w).

Definition bind {A B} (m : M A) (k : A -> M B) : M B :=
  fun w =>
    match m w with
    | (Ok a, w') => k a w'
    | (Raise e, w') => (Raise e, w')
    end.

Definition raise {A} (e : exn) : M A := fun w => (Raise e, w).

Definition lift {A} (r : result A) : M A := fun w => (r, w).

Declare Scope script_scope.
Delimit Scope script_scope with script.
Notation "x <- m ;; k" := (bind m (fun x => k))
  (at level 100, m at next level, right associativity) : script_scope.
Notation "m ;;; k" := (bind m (fun _ => k))
  (at level 100, right associativity) : script_scope.

Local Open Scope script_scope.

(** *** Primitive effects *)

(** The dictionary object at a location; a location nothing was stored
    at yet holds the empty dictionary, as the [dict()] and [{}] default
    arguments do when the module is loaded. *)
Definition deref (h : gmap loc dict) (l : loc) : dict :=
  default [] (h !! l).

(** A snapshot of the entries of the dictionary at [l]. *)
Definition dict_items (l : loc) : M dict :=
  fun w => (Ok (deref (heap w) l), w).

Definition set_heap (h : gmap loc dict) (w : World) : World :=
  {| heap := h; clock := clock w; clock_reads := clock_reads w;
     transport := transport w; sent := sent w; console := console w |}.

(** [d[k] = v] on the object at [l]. *)
Definition dict_store (l : loc) (k : str) (v : pyval) : M unit :=
  fun w =>
    (Ok tt, set_heap (<[l := dict_set k v (deref (heap w) l)]> (heap w)) w).

(** [d[k]] on the object at [l]. *)
Definition dict_load (l : loc) (k : str) : M pyval :=
  fun w =>
    match dict_get k (deref (heap w) l) with
    | Some v => (Ok v, w)
    | None => (Raise (KeyError k), w)
    end.

(** [d.update(other)] on the object at [l]. *)
Definition dict_update_at (l : loc) (other : dict) : M unit :=
  fun w =>
    (Ok tt, set_heap (<[l := dict_update (deref (heap w) l) other]> (heap w)) w).

(** One reading of the system clock, in microseconds since the epoch. *)
Definition read_clock : M Z :=
  fun w =>
    (Ok (clock w (clock_reads w)),
     {| heap := heap w; clock := clock w; clock_reads := S (clock_reads w);
        transport := transport w; sent := sent w; console := console w |}).

(** [int(time.time())]: whole seconds, truncated towards zero. *)
Definition int_time_time : M Z :=
  t <- read_clock ;; ret (Z.quot t 1000000).

Definition print (template : string) (args : list parg) : M unit :=
  fun w =>
    (Ok tt,
     {| heap := heap w; clock := clock w; clock_reads := clock_reads w;
        transport := transport w; sent := sent w;
        console := (template, args) :: console w |}).

(** The exchange [requests] performs; a transport failure is raised. *)
Definition send (rq : HttpRequest) : M Response :=
  fun w =>
    (transport w rq,
     {| heap := heap w; clock := clock w; clock_reads := clock_reads w;
        transport := transport w; sent := rq :: sent w;
        console := console w |}).

(** Reading a local variable that may not have been assigned. *)
Definition read_local {A} (name : string) (v : option A) : M A :=
  match v with
  | Some a => ret a
  | None => raise (UnboundLocalError name)
  end.

(** [response.raise_for_status()] of [requests]: client and server
    errors raise an [HTTPError] that holds the response. *)
Definition raise_for_status (r : Response) : M unit :=
  if ((400 <=? status_code r) && (status_code r <? 500))
     || ((500 <=? status_code r) && (status_code r <? 600))
  then raise (HTTPError (status_code r) (content r))
  else ret tt.

(** ['{}'.format(n)] of an integer (decimal). *)
Fixpoint dec_digits (fuel : nat) (n : Z) (acc : str) : str :=
  match fuel with
  | O => acc
  | S fuel' =>
      if n <? 10 then Z.to_N (48 + n) :: acc
      else dec_digits fuel' (n / 10) (Z.to_N (48 + n mod 10) :: acc)
  end.

Definition format_d (n : Z) : str :=
  if n <? 0
  then 45%N :: dec_digits (S (Z.to_nat (Z.log2 (- n)))) (- n) []
  else dec_digits (S (Z.to_nat (Z.log2 n))) n [].

(** [bytes2hex], the same in both scripts that have it. *)
Definition bytes2hex (bb : bytes) : str :=
  join (u " ") (map (fun x => hex2 (bv x)) bb).

(** *** Module-level configuration

    [restv1-auth.py] names these [base_url], [auth_method],
    [dev_demo_key], [client_id] and [hmac_secret_key];
    [restv1-hmac.py] has [API_BASE_URL], [CLIENT_ID] and
    [HMAC_SECRET_KEY]; [restv1-apikey.py] has [API_BASE_URL] and
    [API_KEY] (here [dev_demo_key]).  The scripts ask for them to be
    edited before use. *)
Record Config : Type := {
  base_url : str;
  auth_method : str;
  dev_demo_key : str;
  client_id : str;
  hmac_secret_key : str }.

(** The default-argument dictionaries, created once when the [def] is
    executed. *)
Definition auth_request_as_hmac_params : loc := 1%positive.
Definition auth_request_as_hmac_headers : loc := 2%positive.
Definition auth_request_as_url_params : loc := 3%positive.
Definition auth_request_as_url_headers : loc := 4%positive.
Definition do_req_params : loc := 5%positive.
Definition do_req_headers : loc := 6%positive.
Definition do_get_params : loc := 7%positive.
Definition do_get_headers : loc := 8%positive.

Definition str_eqb (a b : str) : bool := bool_decide (a = b).

(* ===================================================================== *)
(** ** The request authenticators and the dispatch helpers *)
(* ===================================================================== *)

Section Scripts.

Variable cfg : Config.

(** [auth_request_as_hmac], the same text in [restv1-auth.py]
    (lines 71-109) and [restv1-hmac.py] (lines 49-87). *)
Definition auth_request_as_hmac (relative_url : str)
    (params headers : option loc) (body : bytes) : M (str * loc) :=
  let params := default auth_request_as_hmac_params params in
  let headers := default auth_request_as_hmac_headers headers in
  hex_key <- lift (fromhex (hmac_secret_key cfg)) ;;
  print "Authenticating request using HMAC" [] ;;;
  print "Secret key: {}" [PStr (bytes2hex hex_key)] ;;;
  print "" [] ;;;
  let client_header := u "X-Kaiterra-Client" in
  dict_store headers client_header (VStr (client_id cfg)) ;;;
  let timestamp_header := u "X-Kaiterra-Time" in
  now <- int_time_time ;;
  dict_store headers timestamp_header (VStr (format_x now)) ;;;
  hc <- dict_load headers client_header ;;
  ht <- dict_load headers timestamp_header ;;
  header_component <-
    lift (encode_ascii (client_header ++ u "=" ++ format_value hc
                        ++ u "&" ++ timestamp_header ++ u "="
                        ++ format_value ht)) ;;
  query <- dict_items params ;;
  relative_url_with_params <-
    match query with
    | [] => ret relative_url
    | _ :: _ =>
        q <- lift (urlencode query) ;;
        ret (relative_url ++ u "?" ++ q)
    end ;;
  url_component <- lift (encode_ascii relative_url_with_params) ;;
  let full_payload := header_component ++ url_component ++ body in
  print "Full payload to be signed:" [] ;;;
  print "{}" [PBytes full_payload] ;;;
  print "" [] ;;;
  signature <- lift (hmac hex_key full_payload) ;;
  dict_store headers (u "X-Kaiterra-HMAC") (VBytes (b64encode signature)) ;;;
  ret (strip 47 (base_url cfg) ++ relative_url_with_params, headers).

(** [auth_request_as_url] of [restv1-auth.py] (lines 112-119). *)
Definition auth_request_as_url (relative_url : str)
    (params headers : option loc) (body : bytes) : M (str * loc) :=
  let params := default auth_request_as_url_params params in
  let headers := default auth_request_as_url_headers headers in
  dict_store params (u "key") (VStr (dev_demo_key cfg)) ;;;
  query <- dict_items params ;;
  q <- lift (urlencode query) ;;
  ret (strip 47 (base_url cfg) ++ relative_url ++ u "?" ++ q, headers).

End Scripts.

Module Auth.
Section Script.

Variable cfg : Config.

(** [json.loads], a function of the text it is given. *)
Variable json_loads : str -> result json.

(** [do_req] of [restv1-auth.py] (lines 122-159). *)
Definition do_req (verb url : str) (body : bytes)
    (params headers : option loc) : M json :=
  let params := default do_req_params params in
  let headers := default do_req_headers headers in
  r <- (if str_eqb (auth_method cfg) (u "hmac")
        then auth_request_as_hmac cfg url (Some params) None body
        else if str_eqb (auth_method cfg) (u "url")
        then auth_request_as_url cfg url (Some params) None body
        else raise (Exception (u "Unknown auth method '"
                               ++ auth_method cfg ++ u "'"))) ;;
  let url := fst r in
  let headers := snd r in
  (if (0 <? Z.of_nat (length body))
   then dict_update_at headers
          [(u "Content-Type", VStr (u "application/json"))]
   else ret tt) ;;;
  print "Fetching: {}" [PStr url] ;;;
  hs <- dict_items headers ;;
  print "Headers:  {}" [PDict hs] ;;;
  print "" [] ;;;
  response <-
    (if str_eqb verb (u "get")
     then r <- send {| rq_verb := u "get"; rq_url := url;
                       rq_params := []; rq_headers := hs;
                       rq_data := []; rq_allow_redirects := false |} ;;
          ret (Some r)
     else if str_eqb verb (u "post")
     then r <- send {| rq_verb := u "post"; rq_url := url;
                       rq_params := []; rq_headers := hs;
                       rq_data := body; rq_allow_redirects := false |} ;;
          ret (Some r)
     else if str_eqb verb (u "put")
     then r <- send {| rq_verb := u "put"; rq_url := url;
                       rq_params := []; rq_headers := hs;
                       rq_data := body; rq_allow_redirects := false |} ;;
          ret (Some r)
     else ret None) ;;
  response <- read_local "response" response ;;
  print "Status ({}), {} bytes returned:"
        [PInt (status_code response);
         PInt (Z.of_nat (length (content response)))] ;;;
  content_str <-
    (if (0 <? Z.of_nat (length (content response)))
     then content_str <- lift (decode_utf8 (content response)) ;;
          print "{}" [PStr content_str] ;;;
          ret content_str
     else ret []) ;;
  raise_for_status response ;;;
  (if negb ((200 <=? status_code response)
            && (status_code response <? 300))
   then raise (Exception (u "Response code wasn't 2xx (was "
                          ++ format_d (status_code response) ++ u ")"))
   else ret tt) ;;;
  if (0 <? Z.of_nat (length content_str))
  then lift (json_loads content_str)
  else ret JNull.

Definition get_laser_egg (id : str) : M json :=
  do_req (u "get") id [] None None.

End Script.
End Auth.

(** The parts of the two data scripts that have the same text:
    [parse_rfc3339_utc] and the two summaries, which differ only in the
    helper that fetches the document. *)
Section Summaries.

(** [datetime.strptime(ts, '%Y-%m-%dT%H:%M:%SZ')], as microseconds
    since the epoch; the argument has to be a [str]. *)
Variable strptime : str -> result Z.

Variable get_laser_egg : str -> M json.
Variable get_sensedge : str -> M json.

Definition parse_rfc3339_utc (ts : json) : M Z :=
  match ts with
  | JStr s => lift (strptime s)
  | _ => raise (TypeError "strptime() argument 1 must be str")
  end.

(** [int((datetime.now(timezone.utc) - ts).total_seconds())]. *)
Definition seconds_since (ts : Z) : M Z :=
  now <- read_clock ;; ret (int_total_seconds (now - ts)).

Definition summarize_laser_egg (id : str) : M unit :=
  data <- get_laser_egg id ;;
  latest_data <- lift (json_get data (u "info.aqi")) ;;
  (if truthy latest_data then
     print "Laser Egg data returned:" [] ;;;
     ts_field <- lift (json_subscript latest_data (u "ts")) ;;
     ts <- parse_rfc3339_utc ts_field ;;
     ts_ago <- seconds_since ts ;;
     print "  Updated: {} seconds ago" [PInt ts_ago] ;;;
     data_field <- lift (json_subscript latest_data (u "data")) ;;
     pm25 <- lift (json_get data_field (u "pm25")) ;;
     if truthy pm25
     then print "  PM2.5:   {} µg/m³" [PJson pm25]
     else print "  PM2.5:   no data" []
   else print "Laser Egg hasn't uploaded any data yet" []) ;;;
  print "" [].

Definition summarize_sensedge (id : str) : M unit :=
  data <- get_sensedge id ;;
  latest_data <- lift (json_get data (u "latest")) ;;
  (if truthy latest_data then
     print "Sensedge data returned:" [] ;;;
     ts_field <- lift (json_subscript latest_data (u "ts")) ;;
     ts <- parse_rfc3339_utc ts_field ;;
     ts_ago <- seconds_since ts ;;
     print "  Updated: {} seconds ago" [PInt ts_ago] ;;;
     pm25 <- lift (json_get latest_data (u "km100.rpm25c")) ;;
     (if truthy pm25
      then print "  PM2.5:   {} µg/m³" [PJson pm25]
      else print "  PM2.5:   no data" []) ;;;
     tvoc <- lift (json_get latest_data (u "km102.rtvoc (ppb)")) ;;
     if truthy tvoc
     then print "  TVOC:    {} ppb" [PJson tvoc]
     else print "  TVOC:    no data" []
   else print "Sensedge hasn't uploaded any data yet" []) ;;;
  print "" [].

End Summaries.

Module Hmac.
Section Script.

Variable cfg : Config.
Variable json_loads : str -> result json.
Variable strptime : str -> result Z.

(** [do_req] of [restv1-hmac.py] (lines 94-125). *)
Definition do_req (verb url : str) (body : bytes)
    (params headers : option loc) : M json :=
  let params := default do_req_params params in
  let headers := default do_req_headers headers in
  r <- auth_request_as_hmac cfg url (Some params) None body ;;
  let url := fst r in
  let headers := snd r in
  (if (0 <? Z.of_nat (length body))
   then dict_update_at headers
          [(u "Content-Type", VStr (u "application/json"))]
   else ret tt) ;;;
  print "Fetching: {}" [PStr url] ;;;
  hs <- dict_items headers ;;
  print "Headers:  {}" [PDict hs] ;;;
  print "" [] ;;;
  response <-
    (if str_eqb verb (u "get")
     then r <- send {| rq_verb := u "get"; rq_url := url;
                       rq_params := []; rq_headers := hs;
                       rq_data := []; rq_allow_redirects := true |} ;;
          ret (Some r)
     else if str_eqb verb (u "post")
     then r <- send {| rq_verb := u "post"; rq_url := url;
                       rq_params := []; rq_headers := hs;
                       rq_data := body; rq_allow_redirects := true |} ;;
          ret (Some r)
     else if str_eqb verb (u "put")
     then r <- send {| rq_verb := u "put"; rq_url := url;
                       rq_params := []; rq_headers := hs;
                       rq_data := body; rq_allow_redirects := true |} ;;
          ret (Some r)
     else ret None) ;;
  response <- read_local "response" response ;;
  print "Status ({}), {} bytes returned:"
        [PInt (status_code response);
         PInt (Z.of_nat (length (content response)))] ;;;
  content_str <-
    (if (0 <? Z.of_nat (length (content response)))
     then content_str <- lift (decode_utf8 (content response)) ;;
          print "{}" [PStr content_str] ;;;
          ret content_str
     else ret []) ;;
  raise_for_status response ;;;
  if (0 <? Z.of_nat (length content_str))
  then lift (json_loads content_str)
  else ret JNull.

Definition get_laser_egg (id : str) : M json :=
  do_req (u "get") (u "/lasereggs/" ++ id) [] None None.

Definition get_sensedge (id : str) : M json :=
  do_req (u "get") (u "/sensedges/" ++ id) [] None None.

Definition summarize_laser_egg (id : str) : M unit :=
  summarize_laser_egg strptime get_laser_egg id.

Definition summarize_sensedge (id : str) : M unit :=
  summarize_sensedge strptime get_sensedge id.

End Script.
End Hmac.

Module ApiKey.
Section Script.

Variable cfg : Config.
Variable json_loads : str -> result json.
Variable strptime : str -> result Z.

(** [do_get] of [restv1-apikey.py] (lines 26-55); [API_KEY] is
    [dev_demo_key cfg].  The query string is put together by
    [requests] from [rq_params]. *)
Definition do_get (relative_url : str) (params headers : option loc)
    : M json :=
  let params := default do_get_params params in
  let headers := default do_get_headers headers in
  dict_store params (u "key") (VStr (dev_demo_key cfg)) ;;;
  let url := strip 47 (base_url cfg) ++ relative_url in
  print "http: Fetching:   {}" [PStr url] ;;;
  ps <- dict_items params ;;
  print "http: Parameters: {}" [PDict ps] ;;;
  hs <- dict_items headers ;;
  print "http: Headers:  {}" [PDict hs] ;;;
  print "" [] ;;;
  response <- send {| rq_verb := u "get"; rq_url := url;
                      rq_params := ps; rq_headers := hs;
                      rq_data := []; rq_allow_redirects := true |} ;;
  print "http: Status ({}), {} bytes returned:"
        [PInt (status_code response);
         PInt (Z.of_nat (length (content response)))] ;;;
  content_str <-
    (if (0 <? Z.of_nat (length (content response)))
     then content_str <- lift (decode_utf8 (content response)) ;;
          print "{}" [PStr content_str] ;;;
          print "" [] ;;;
          ret content_str
     else ret []) ;;
  raise_for_status response ;;;
  if (0 <? Z.of_nat (length content_str))
  then lift (json_loads content_str)
  else ret JNull.

Definition get_laser_egg (id : str) : M json :=
  do_get (u "/lasereggs/" ++ id) None None.

Definition get_sensedge (id : str) : M json :=
  do_get (u "/sensedges/" ++ id) None None.

Definition summarize_laser_egg (id : str) : M unit :=
  summarize_laser_egg strptime get_laser_egg id.

Definition summarize_sensedge (id : str) : M unit :=
  summarize_sensedge strptime get_sensedge id.

End Script.
End ApiKey.

(** The configurations the scripts ship with. *)
Definition auth_shipped : Config :=
  {| base_url := u "https://api.origins-china.cn/v1/";
     auth_method := u "hmac";
     dev_demo_key := u "kOpAgVMnz2zM5l6XKQwv4JmUEvopnmUewFKXQ0Wvf9Su72a9";
     client_id := u "2c13f157da77";
     hmac_secret_key :=
       u "c92b4edcf25006c1854ab33144e4101261c419b48c6c5a2dbf3c349bd07b1f27c259632a2bf6812e15b994abb1dcffad160a495561986b04514bd5e070b985b1" |}.

Definition hmac_shipped : Config :=
  {| base_url := u "https://api.kaiterra.cn/v1/";
     auth_method := u "hmac";
     dev_demo_key := [];
     client_id := u "00000000001";
     hmac_secret_key := u "your-hmac-secret-key" |}.

Definition apikey_shipped : Config :=
  {| base_url := u "https://api.kaiterra.com/v1/";
     auth_method := u "url";
     dev_demo_key := u "your-api-key";
     client_id := [];
     hmac_secret_key := [] |}.

(** [restv1-hmac.py] once its placeholder key is replaced, here by the
    key of [restv1-auth.py]; and the configuration of the end-to-end
    scenario of the specification (a secret of 64 zero bytes). *)
Definition hmac_edited : Config :=
  {| base_url := base_url hmac_shipped;
     auth_method := auth_method hmac_shipped;
     dev_demo_key := dev_demo_key hmac_shipped;
     client_id := client_id hmac_shipped;
     hmac_secret_key := hmac_secret_key auth_shipped |}.

Definition zero_key_scenario : Config :=
  {| base_url := base_url auth_shipped;
     auth_method := u "hmac";
     dev_demo_key := [];
     client_id := u "2c13f157da77";
     hmac_secret_key := flat_map (fun _ => u "00") (seq 0 64) |}.

(** The credentials of [restv1-auth.py] with a client id that is not
    ASCII text. *)
Definition non_ascii_client : Config :=
  {| base_url := base_url auth_shipped;
     auth_method := auth_method auth_shipped;
     dev_demo_key := dev_demo_key auth_shipped;
     client_id := [233%N];
     hmac_secret_key := hmac_secret_key auth_shipped |}.

(** A world in which nothing has happened yet: no dictionary was
    touched, the clock shows [t] microseconds at every reading and every
    request is answered by [answer]. *)
Definition fresh (t : Z) (answer : HttpRequest -> result Response) : World :=
  {| heap := ∅; clock := fun _ => t; clock_reads := 0;
     transport := answer; sent := []; console := [] |}.

(** The bytes of the secret key [restv1-auth.py] ships with. *)
Definition auth_shipped_key : bytes :=
  Eval vm_compute in
    match fromhex (hmac_secret_key auth_shipped) with
    | Ok key => key
    | Raise _ => []
    end.

(** A server that answers every request with the same response. *)
Definition always (r : Response) : HttpRequest -> result Response :=
  fun _ => Ok r.

(** A fresh world at time 0 whose server answers 200 with no body. *)
Definition quiet : World :=
  fresh 0 (always {| status_code := 200; content := [] |}).

(** Two other answers: a 304 with a body, and a 404. *)
Definition not_modified : Response :=
  {| status_code := 304; content := b_lit "not modified" |}.

Definition not_found : Response :=
  {| status_code := 404; content := b_lit "no such device" |}.

(** A Laser Egg document with the given members under [data], a
    helper that fetches a fixed document, and a time-stamp parser that
    answers the epoch. *)
Definition egg_fields (readings : list (str * json)) : json :=
  JDict [(u "ts", JStr (u "1970-01-01T00:00:00Z"));
         (u "data", JDict readings)].

Definition egg_doc (readings : list (str * json)) : json :=
  JDict [(u "info.aqi", egg_fields readings)].

Definition fetch_doc (doc : json) : str -> M json := fun _ => ret doc.

Definition epoch_parser : str -> result Z := fun _ => Ok 0.

(** A [json.loads] that knows one document only. *)
Definition loads_null (text : str) : result json :=
  if str_eqb text (u "null") then Ok JNull else Raise JSONDecodeError.

(* ===================================================================== *)
(** ** Notions used to state the properties *)
(* ===================================================================== *)

Definition result_map {A B} (f : A -> B) (r : result A) : result B :=
  match r with
  | Ok a => Ok (f a)
  | Raise e => Raise e
  end.

(** Text made of ASCII characters only, and its bytes. *)
Definition is_ascii (s : str) : bool := forallb (fun c => (c <? 128)%N) s.

Definition ascii_bytes (s : str) : bytes := map nbyte s.

(** Text that UTF-8 can encode: no surrogate code point, nothing above
    U+10FFFF. *)
Definition scalar (c : N) : bool :=
  ((c <? 0xD800) || ((0xE000 <=? c) && (c <? 0x110000)))%N.

Definition scalar_text (s : str) : bool := forallb scalar s.

Definition scalar_value (v : pyval) : bool :=
  match v with
  | VStr s => scalar_text s
  | VBytes _ => true
  end.

Definition scalar_dict (d : dict) : bool :=
  forallb (fun kv => scalar_text (fst kv) && scalar_value (snd kv)) d.

(** Valid hexadecimal text: pairs of hexadecimal digits, with ASCII
    white space allowed around the pairs. *)
Inductive hex_text : str -> Prop :=
| hex_text_nil : hex_text []
| hex_text_space c s :
    is_space c = true -> hex_text s -> hex_text (c :: s)
| hex_text_pair c d s :
    is_Some (hex_value c) -> is_Some (hex_value d) -> hex_text s ->
    hex_text (c :: d :: s).

(** The three headers of a signed request. *)
Definition client_header : str := u "X-Kaiterra-Client".
Definition timestamp_header : str := u "X-Kaiterra-Time".
Definition hmac_header : str := u "X-Kaiterra-HMAC".

(** The verbs [do_req] has a branch for. *)
Definition known_verb (verb : str) : bool :=
  str_eqb verb (u "get") || str_eqb verb (u "post") || str_eqb verb (u "put").

(** The headers dictionary once the client and the time stamp are
    stored, and once the signature is stored too. *)
Definition stamped (cfg : Config) (now : Z) (d : dict) : dict :=
  dict_set timestamp_header (VStr (format_x now))
    (dict_set client_header (VStr (client_id cfg)) d).

Definition signed_headers (cfg : Config) (now : Z) (signature : bytes)
    (d : dict) : dict :=
  dict_set hmac_header (VBytes (b64encode signature)) (stamped cfg now d).

(** The text [X-Kaiterra-Client=<client_id>&X-Kaiterra-Time=<hex time>]. *)
Definition header_text (cfg : Config) (now : Z) : str :=
  client_header ++ u "=" ++ client_id cfg ++ u "&"
  ++ timestamp_header ++ u "=" ++ format_x now.

(** What follows the relative URL: nothing for an empty [params], else
    [?] and the encoded query [q]. *)
Definition query_suffix (params : dict) (q : str) : str :=
  match params with
  | [] => []
  | _ :: _ => u "?" ++ q
  end.

(** A script leaves one component [f] of the world as it found it,
    whatever its outcome. *)
Definition keeps {X A} (f : World -> X) (m : M A) : Prop :=
  forall w, f (snd (m w)) = f w.







(** The world after a summary has read the clock once and printed
    [lines] (latest first). *)
Definition after_summary (lines : list (string * list parg)) (w : World)
    : World :=
  {| heap := heap w; clock := clock w; clock_reads := S (clock_reads w);
     transport := transport w; sent := sent w;
     console := lines ++ console w |}.

(** The seconds the clock shows at the next reading. *)
Definition next_time (w : World) : Z :=
  Z.quot (clock w (clock_reads w)) 1000000.

(** [int(x)] on a binary64 number of the Standard Library. *)
Definition trunc_spec_float (x : spec_float) : Z :=
  match x with
  | S754_finite s m e =>
      (if s then -1 else 1)
      * (if 0 <=? e then Z.pos m * 2 ^ e else Z.pos m / 2 ^ (- e))
  | _ => 0
  end.

(** [int(text, 16)] for text made of hexadecimal digits only. *)
Fixpoint hex_number (acc : Z) (s : str) : option Z :=
  match s with
  | [] => Some acc
  | c :: rest =>
      match hex_value c with
      | Some d => hex_number (16 * acc + Z.of_N d) rest
      | None => None
      end
  end.

Definition int16 (s : str) : option Z :=
  match s with
  | [] => None
  | _ :: _ => hex_number 0 s
  end.

(** A configuration with another base URL. *)
Definition with_base_url (cfg : Config) (base : str) : Config :=
  {| base_url := base;
     auth_method := auth_method cfg;
     dev_demo_key := dev_demo_key cfg;
     client_id := client_id cfg;
     hmac_secret_key := hmac_secret_key cfg |}.

(* ===================================================================== *)
(** ** Properties of the library models *)
(* ===================================================================== *)

Example sha256_round_constants :
  nth 0 SHA256.K 0 = 0x428a2f98 /\ nth 63 SHA256.K 0 = 0xc67178f2
  /\ length SHA256.K = 64%nat
  /\ SHA256.ra SHA256.init = 0x6a09e667 /\ SHA256.rh SHA256.init = 0x5be0cd19.
Proof. repeat split. Qed.

Example sha256_empty :
  hex_of_bytes (SHA256.digest []) =
  "e3b0c44298fc1c149afbf4c8996fb92427ae41e4649b934ca495991b7852b855"%string.
Proof. vm_compute. reflexivity. Qed.

Example sha256_abc :
  hex_of_bytes (SHA256.digest (b_lit "abc")) =
  "ba7816bf8f01cfea414140de5dae2223b00361a396177a9cb410ff61f20015ad"%string.
Proof. vm_compute. reflexivity. Qed.

Example sha256_two_blocks :
  hex_of_bytes (SHA256.digest
    (b_lit "abcdbcdecdefdefgefghfghighijhijkijkljklmklmnlmnomnopnopq")) =
  "248d6a61d20638b8e5c026930c3e6039a33ce45964ff2167f6ecedd419db06c1"%string.
Proof. vm_compute. reflexivity. Qed.

(** A digest is 32 bytes long. *)
Lemma sha256_digest_length (msg : bytes) :
  length (SHA256.digest msg) = 32%nat.
Proof. reflexivity. Qed.

(** The padded message is a whole number of 64-byte blocks, so [absorb]
    consumes all of it. *)
Lemma sha256_pad_blocks (msg : bytes) :
  (length (SHA256.pad msg) mod 64 = 0)%nat.
Proof.
  unfold SHA256.pad. cbv zeta.
  rewrite length_app. cbn [length]. rewrite length_app, repeat_length.
  change (length (SHA256.bitlen_bytes _)) with 8%nat.
  set (n := length msg).
  assert (H : 0 <= (55 - Z.of_nat n) mod 64 < 64) by (apply Z.mod_pos_bound; lia).
  apply Nat2Z.inj. rewrite Nat2Z.inj_mod.
  replace (Z.of_nat (n + S (Z.to_nat ((55 - Z.of_nat n) mod 64) + 8)))
    with (Z.of_nat n + 9 + (55 - Z.of_nat n) mod 64) by lia.
  change (Z.of_nat 64) with 64. change (Z.of_nat 0) with 0.
  rewrite Zplus_mod, Zmod_mod, <- Zplus_mod.
  replace (Z.of_nat n + 9 + (55 - Z.of_nat n)) with (1 * 64) by lia.
  apply Z_mod_mult.
Qed.

Lemma hash_is_sha256 (msg : bytes) : hash msg = SHA256.digest msg.
Proof. reflexivity. Qed.

(** [bytes(0 for _ in range(n))] is [n] zero bytes. *)
Lemma py_bytes_zeros (n start : nat) :
  py_bytes (map (fun _ => 0) (seq start n)) = Ok (repeat x00 n).
Proof.
  revert start. induction n as [|n IH]; intros start; cbn [seq map py_bytes].
  - reflexivity.
  - rewrite IH. reflexivity.
Qed.

(** On one byte, [0x5c ^ b] and [0x36 ^ b] stay in [range(256)] and are
    the bit-wise exclusive or. *)
Lemma int_to_byte_xor_5c (b : byte) :
  int_to_byte (Z.lxor 0x5c (byte_val b)) = Ok (byte_xor b x5c).
Proof. destruct b; vm_compute; reflexivity. Qed.

Lemma int_to_byte_xor_36 (b : byte) :
  int_to_byte (Z.lxor 0x36 (byte_val b)) = Ok (byte_xor b x36).
Proof. destruct b; vm_compute; reflexivity. Qed.

Lemma py_bytes_xor (c : Z) (cb : byte) (key : bytes) :
  (forall b, int_to_byte (Z.lxor c (byte_val b)) = Ok (byte_xor b cb)) ->
  py_bytes (map (fun b => Z.lxor c (byte_val b)) key)
  = Ok (map (fun b => byte_xor b cb) key).
Proof.
  intros Hc. induction key as [|b key IH]; cbn [map py_bytes].
  - reflexivity.
  - rewrite Hc, IH. reflexivity.
Qed.

(** XOR with a constant repeated over at least the length of the key. *)
Lemma xor_bytes_repeat (cb : byte) (key : bytes) (n : nat) :
  (length key <= n)%nat ->
  xor_bytes key (repeat cb n) = map (fun b => byte_xor b cb) key.
Proof.
  revert n. induction key as [|b key IH]; intros n Hn.
  - reflexivity.
  - destruct n as [|n]; cbn [length] in Hn; [lia|].
    cbn [repeat xor_bytes map]. rewrite IH by lia. reflexivity.
Qed.

Lemma spec_key_length (key : bytes) :
  length (spec_step2 (spec_step1 key)) = 64%nat.
Proof.
  unfold spec_step2, spec_step1.
  destruct (64 <? length key)%nat eqn:Hlong.
  - rewrite sha256_digest_length. reflexivity.
  - apply Nat.ltb_ge in Hlong.
    destruct (length key <? 64)%nat eqn:Hshort.
    + apply Nat.ltb_lt in Hshort.
      rewrite length_app, repeat_length. lia.
    + apply Nat.ltb_ge in Hshort. lia.
Qed.

(* ===================================================================== *)
(** ** Seconds of a [timedelta] *)
(* ===================================================================== *)

Lemma round_half_even_bounds (num den : Z) :
  0 < den ->
  let q := num / den in
  (round_half_even num den = q
   \/ (round_half_even num den = q + 1 /\ den <= 2 * (num mod den))).
Proof.
  intros Hden q. unfold round_half_even. fold q.
  destruct (Z.ltb_spec den (2 * (num mod den))) as [H|H]; cbn [orb].
  - right. split; [reflexivity|lia].
  - destruct (Z.eqb_spec den (2 * (num mod den))) as [E|E]; cbn [andb].
    + destruct (Z.odd q); [right; split; [reflexivity|lia]|left; reflexivity].
    + left. reflexivity.
Qed.

(** Rounding at a scale of [2 ^ k] with [k >= 19] never reaches the next
    whole number of seconds: half a step is less than a microsecond. *)
Lemma rounded_seconds (a k : Z) :
  0 <= a -> 19 <= k ->
  round_half_even (a * 2 ^ k) 1000000 / 2 ^ k = a / 1000000.
Proof.
  intros Ha Hk.
  set (P := 2 ^ k).
  assert (HP : 524288 <= P).
  { change 524288 with (2 ^ 19). apply Z.pow_le_mono_r; lia. }
  set (Q := a / 1000000).
  pose proof (Z.div_mod a 1000000 ltac:(lia)) as Ha'.
  pose proof (Z.mod_pos_bound a 1000000 ltac:(lia)) as HR.
  fold Q in Ha'.
  pose proof (Z.div_mod (a * P) 1000000 ltac:(lia)) as Hq.
  pose proof (Z.mod_pos_bound (a * P) 1000000 ltac:(lia)) as Hr.
  set (q := a * P / 1000000) in *.
  set (r := (a * P) mod 1000000) in *.
  assert (Hlo : Q * P <= q).
  { unfold q. apply Z.div_le_lower_bound; [lia|]. nia. }
  assert (Hhi : q < (Q + 1) * P).
  { unfold q. apply Z.div_lt_upper_bound; [lia|]. nia. }
  symmetry. apply Z.div_unique_pos with
    (r := round_half_even (a * P) 1000000 - Q * P); [|lia].
  destruct (round_half_even_bounds (a * P) 1000000 ltac:(lia)) as [->|[-> Hr2]];
    fold q.
  - lia.
  - fold r in Hr2. split; [lia|].
    assert (q + 1 < (Q + 1) * P); [|lia].
    destruct (Z.eq_dec (q + 1) ((Q + 1) * P)) as [E|E]; [|lia].
    exfalso. nia.
Qed.

Lemma int_total_seconds_pos (a : Z) :
  0 < a < 2 ^ 34 * 1000000 ->
  int_of_float (true_divide a 1000000) = a / 1000000.
Proof.
  intros [Hpos Hlt].
  unfold true_divide, int_of_float. cbv zeta. cbn [fst snd].
  change (Z.log2 1000000) with 19.
  set (la := Z.log2 a).
  assert (Hla : 0 <= la <= 53).
  { split; [apply Z.log2_nonneg|].
    assert (la < 54); [|lia].
    apply Z.log2_lt_pow2; [lia|]. change (2 ^ 54) with 18014398509481984. lia. }
  set (e := la - 19 - (if a * 2 ^ 19 <? 1000000 * 2 ^ la then 1 else 0) - 52).
  assert (He : e <= -19).
  { unfold e. destruct (Z.ltb_spec (a * 2 ^ 19) (1000000 * 2 ^ la)) as [H|H];
      [lia|].
    assert (la <> 53); [|lia].
    intros E. rewrite E in H.
    change (2 ^ 53) with (2 ^ 19 * 2 ^ 34) in H.
    change (2 ^ 19) with 524288 in H. lia. }
  destruct (Z.leb_spec 0 e) as [H|_]; [lia|].
  rewrite (Z.max_r 0 (- e)) by lia.
  rewrite (Z.max_l 0 e) by lia.
  change (2 ^ 0) with 1. rewrite Z.mul_1_r.
  apply rounded_seconds; lia.
Qed.

(** Less than 2^34 seconds (about 544 years) away, the float is exact
    enough: the age is the whole number of seconds, truncated towards
    zero. *)
Lemma int_total_seconds_exact (us : Z) :
  Z.abs us < 2 ^ 34 * 1000000 ->
  int_total_seconds us = Z.quot us 1000000.
Proof.
  intros Hus. unfold int_total_seconds.
  destruct (Z.eqb_spec us 0) as [->|Hnz]; [reflexivity|].
  rewrite int_total_seconds_pos by lia.
  destruct (Z.lt_total us 0) as [Hneg|[H0|Hpos]]; [|lia|].
  - rewrite Z.abs_neq, (Z.sgn_neg us) by lia.
    rewrite <- (Z.opp_involutive us) at 2.
    rewrite Z.quot_opp_l by lia.
    rewrite Z.quot_div_nonneg by lia. lia.
  - rewrite Z.abs_eq, (Z.sgn_pos us) by lia.
    rewrite Z.quot_div_nonneg by lia. lia.
Qed.

(** Further away the float may round up to the next second: the stamp
    [0001-01-01T00:00:00Z] read 999999 microseconds after the epoch. *)
Example int_total_seconds_rounds_up :
  int_total_seconds 62135596800999999 = 62135596801
  /\ Z.quot 62135596800999999 1000000 = 62135596800.
Proof. split; vm_compute; reflexivity. Qed.

(** The model against the division of the Standard Library's binary64
    numbers. *)
Example int_total_seconds_agrees_with_SFdiv :
  forallb (fun us =>
    int_total_seconds (Z.pos us)
    =? trunc_spec_float (SFdiv 53 1024 (S754_finite false us 0)
                              (S754_finite false 1000000 0)))
    [1; 999999; 1000000; 1597463007999999; 62135596800999999;
     17179869184999999; 314159265358979323]%positive = true.
Proof. vm_compute. reflexivity. Qed.

(* ===================================================================== *)
(** ** The [hmac] function *)
(* ===================================================================== *)

(** The code computes what the specification's four steps describe. *)
Lemma hmac_refines_spec (key message : bytes) :
  hmac key message = Ok (spec_hmac key message).
Proof.
  pose proof (spec_key_length key) as Hlen.
  unfold hmac, spec_hmac, spec_signature, spec_inner.
  unfold spec_step2, spec_step1 in *.
  change (block_size (hasher [])) with 64%nat.
  rewrite hash_is_sha256.
  set (k1 := if (64 <? length key)%nat then SHA256.digest key else key) in *.
  destruct (length k1 <? 64)%nat.
  - rewrite py_bytes_zeros. cbn [rbind].
    rewrite (py_bytes_xor _ _ _ int_to_byte_xor_5c).
    rewrite (py_bytes_xor _ _ _ int_to_byte_xor_36). cbn [rbind].
    rewrite !xor_bytes_repeat by lia. reflexivity.
  - cbn [rbind].
    rewrite (py_bytes_xor _ _ _ int_to_byte_xor_5c).
    rewrite (py_bytes_xor _ _ _ int_to_byte_xor_36). cbn [rbind].
    rewrite !xor_bytes_repeat by lia. reflexivity.
Qed.

(** C1.  [hmac] is HMAC-SHA256 with block size 64: a key longer than 64
    bytes is replaced by its SHA-256 digest (and that digest, being 32
    bytes, is then zero-padded), a shorter key is right-padded with zero
    bytes to 64 bytes, a key of exactly 64 bytes is used as it is, and
    the result is SHA256((k XOR 0x5c..) || SHA256((k XOR 0x36..) ||
    message)) for that 64-byte [k]. *)
Theorem hmac_is_hmac_sha256 (key message : bytes) :
  let k := if (64 <? length key)%nat
           then SHA256.digest key ++ repeat x00 32
           else if (length key <? 64)%nat
           then key ++ repeat x00 (64 - length key)
           else key in
  length k = 64%nat
  /\ spec_step2 (spec_step1 key) = k
  /\ hmac key message
     = Ok (SHA256.digest
             (xor_bytes k (repeat x5c 64)
              ++ SHA256.digest (xor_bytes k (repeat x36 64) ++ message))).
Proof.
  intros k.
  assert (Hk : spec_step2 (spec_step1 key) = k).
  { unfold spec_step2, spec_step1, k.
    destruct (64 <? length key)%nat eqn:Hlong.
    - rewrite sha256_digest_length. reflexivity.
    - reflexivity. }
  split; [rewrite <- Hk; apply spec_key_length|].
  split; [exact Hk|].
  rewrite hmac_refines_spec. unfold spec_hmac, spec_signature, spec_inner.
  rewrite Hk. reflexivity.
Qed.

(** The three branches of the key normalisation, one input each. *)
Example hmac_long_key :
  result_map hex_of_bytes (hmac (repeat xaa 131) (b_lit "Test Using Larger Than Block-Size Key - Hash Key First"))
  = Ok "60e431591ee0b67f0d8a26aacbf5b77f8e0bc6213728c5140546040f0ee37f54"%string.
Proof. vm_compute. reflexivity. Qed.

Example hmac_short_key :
  result_map hex_of_bytes (hmac (repeat x0b 20) (b_lit "Hi There"))
  = Ok "b0344c61d8db38535ca8afceaf0bf12b881dc200c9833da726e9376c2e32cff7"%string.
Proof. vm_compute. reflexivity. Qed.

Example hmac_block_key :
  hmac (repeat x00 64) (b_lit "abc") = hmac [] (b_lit "abc").
Proof. vm_compute. reflexivity. Qed.

(** C3, as the specification prints it: the digest it cites has 63
    hexadecimal digits, and is not what [hmac] returns. *)
Lemma hmac_test_vector_as_printed_fails :
  result_map hex_of_bytes
    (hmac (b_lit "key")
          (b_lit "The quick brown fox jumps over the lazy dog"))
  <> Ok "f7bc83f430538424b13298e6aa6fb143ef4d59a14946175997479dbc2d1a3cd"%string.
Proof. vm_compute. intros H. discriminate H. Qed.

(** C3, amended.  On key "key" and message "The quick brown fox jumps
    over the lazy dog", [hmac] returns the standard HMAC-SHA256 test
    vector, whose hexadecimal form has 64 digits and ends in [3cd8]. *)
Theorem hmac_test_vector :
  result_map hex_of_bytes
    (hmac (b_lit "key")
          (b_lit "The quick brown fox jumps over the lazy dog"))
  = Ok "f7bc83f430538424b13298e6aa6fb143ef4d59a14946175997479dbc2d1a3cd8"%string.
Proof. vm_compute. reflexivity. Qed.

(** [hmac] never raises and returns 32 bytes. *)
Lemma hmac_total (key message : bytes) :
  exists signature, hmac key message = Ok signature
                    /\ length signature = 32%nat.
Proof.
  exists (spec_hmac key message). split.
  - apply hmac_refines_spec.
  - apply sha256_digest_length.
Qed.

(** C4.  [hmac] is deterministic and pure: a key and a message determine
    one signature, which the call returns in every state of the world
    (whatever the clock, the dictionaries, the network and the console
    are), and the call leaves that state as it found it. *)
Theorem hmac_deterministic (key message : bytes) :
  exists signature : bytes,
    length signature = 32%nat
    /\ forall w : World, lift (hmac key message) w = (Ok signature, w).
Proof.
  destruct (hmac_total key message) as (signature & Hsig & Hlen).
  exists signature. split; [exact Hlen|].
  intros w. unfold lift. rewrite Hsig. reflexivity.
Qed.

(* ===================================================================== *)
(** ** Dictionaries and the heap *)
(* ===================================================================== *)

Lemma deref_insert_eq (h : gmap loc dict) (l : loc) (d : dict) :
  deref (<[l := d]> h) l = d.
Proof. unfold deref. rewrite lookup_insert_eq. reflexivity. Qed.

Lemma deref_insert_ne (h : gmap loc dict) (l l' : loc) (d : dict) :
  l <> l' -> deref (<[l := d]> h) l' = deref h l'.
Proof.
  intros Hne. unfold deref. rewrite lookup_insert_ne by exact Hne.
  reflexivity.
Qed.

Lemma dict_get_set_eq (k : str) (v : pyval) (d : dict) :
  dict_get k (dict_set k v d) = Some v.
Proof.
  induction d as [|[k' v'] d IH]; cbn [dict_set dict_get].
  - rewrite decide_True by reflexivity. reflexivity.
  - destruct (decide (k' = k)) as [->|Hne]; cbn [dict_get].
    + rewrite decide_True by reflexivity. reflexivity.
    + rewrite decide_False by exact Hne. exact IH.
Qed.

Lemma dict_get_set_ne (k k' : str) (v : pyval) (d : dict) :
  k <> k' -> dict_get k' (dict_set k v d) = dict_get k' d.
Proof.
  intros Hne. induction d as [|[k0 v0] d IH]; cbn [dict_set dict_get].
  - rewrite decide_False by exact Hne. reflexivity.
  - destruct (decide (k0 = k)) as [->|Hk0]; cbn [dict_get].
    + rewrite !decide_False by exact Hne. reflexivity.
    + destruct (decide (k0 = k')); [reflexivity|exact IH].
Qed.

Lemma dict_set_not_nil (k : str) (v : pyval) (d : dict) :
  dict_set k v d <> [].
Proof.
  destruct d as [|[k' v'] d]; cbn [dict_set]; [discriminate|].
  destruct (decide (k' = k)); discriminate.
Qed.

Lemma header_names_distinct :
  client_header <> timestamp_header
  /\ client_header <> hmac_header
  /\ timestamp_header <> hmac_header.
Proof. repeat split; intros H; vm_compute in H; discriminate H. Qed.

(* ===================================================================== *)
(** ** ASCII text *)
(* ===================================================================== *)

Lemma encode_ascii_ok (s : str) :
  is_ascii s = true -> encode_ascii s = Ok (ascii_bytes s).
Proof.
  induction s as [|c s IH]; cbn [is_ascii forallb encode_ascii ascii_bytes map].
  - reflexivity.
  - intros H. apply andb_true_iff in H as [Hc Hs].
    fold (is_ascii s) in Hs. rewrite (IH Hs).
    unfold ascii_byte, nbyte. rewrite Hc.
    apply N.ltb_lt in Hc.
    rewrite N.mod_small by lia.
    destruct (Byte.of_N c) as [b|] eqn:Hb; [reflexivity|].
    exfalso. apply Byte.of_N_None_iff in Hb. lia.
Qed.

Lemma encode_ascii_raises (s : str) :
  is_ascii s = false -> encode_ascii s = Raise (UnicodeEncodeError "ascii").
Proof.
  induction s as [|c s IH]; cbn [is_ascii forallb encode_ascii].
  - discriminate.
  - intros H. unfold ascii_byte.
    destruct (c <? 128)%N eqn:Hc; cbn [andb] in H.
    + fold (is_ascii s) in H. rewrite (IH H).
      destruct (Byte.of_N c); reflexivity.
    + reflexivity.
Qed.

Lemma is_ascii_app (s t : str) :
  is_ascii (s ++ t) = is_ascii s && is_ascii t.
Proof. unfold is_ascii. apply forallb_app. Qed.

Lemma ascii_bytes_app (s t : str) :
  ascii_bytes (s ++ t) = ascii_bytes s ++ ascii_bytes t.
Proof. unfold ascii_bytes. apply map_app. Qed.

Lemma Ok_inj {A} (a b : A) : Ok a = Ok b -> a = b.
Proof. intros H. injection H as H. exact H. Qed.

Lemma Raise_inj {A} (e e' : exn) : @Raise A e = Raise e' -> e = e'.
Proof. intros H. injection H as H. exact H. Qed.

Lemma hex_char_ascii (d : Z) : d < 16 -> (hex_char d <? 128)%N = true.
Proof.
  intros Hd. unfold hex_char. apply N.ltb_lt.
  destruct (d <? 10) eqn:E; lia.
Qed.

Lemma hex_digits_ascii (fuel : nat) (n : Z) (acc : str) :
  is_ascii acc = true -> is_ascii (hex_digits fuel n acc) = true.
Proof.
  revert n acc. induction fuel as [|fuel IH]; intros n acc Hacc;
    cbn [hex_digits].
  - exact Hacc.
  - destruct (n <? 16) eqn:E.
    + cbn [is_ascii forallb]. fold (is_ascii acc).
      rewrite hex_char_ascii by lia. exact Hacc.
    + apply IH. cbn [is_ascii forallb]. fold (is_ascii acc).
      rewrite hex_char_ascii; [exact Hacc|].
      apply Z.mod_pos_bound. lia.
Qed.

(** A time stamp is ASCII text, whatever the clock shows. *)
Lemma format_x_ascii (n : Z) : is_ascii (format_x n) = true.
Proof.
  unfold format_x. destruct (n <? 0).
  - cbn [is_ascii forallb]. apply hex_digits_ascii. reflexivity.
  - apply hex_digits_ascii. reflexivity.
Qed.

Lemma bv_bound (b : byte) : (bv b < 256)%N.
Proof. pose proof (Byte.to_N_bounded b). unfold bv. lia. Qed.

Lemma always_safe_ascii (c : N) : always_safe c = true -> (c <? 128)%N = true.
Proof.
  unfold always_safe. intros H. apply N.ltb_lt.
  repeat (apply orb_true_iff in H as [H|H]);
    repeat (apply andb_true_iff in H as [? H]);
    repeat match goal with
           | X : (_ <=? _)%N = true |- _ => apply N.leb_le in X
           | X : (_ =? _)%N = true |- _ => apply N.eqb_eq in X
           end; lia.
Qed.

Lemma hex_upper_ascii (d : N) : (d < 16)%N -> (hex_upper d <? 128)%N = true.
Proof.
  intros Hd. unfold hex_upper. apply N.ltb_lt.
  destruct (d <? 10)%N; lia.
Qed.

Lemma quote_byte_ascii (safe : list N) (b : byte) :
  is_ascii safe = true -> is_ascii (quote_byte safe b) = true.
Proof.
  intros Hsafe. unfold quote_byte.
  destruct (always_safe (bv b) || existsb (N.eqb (bv b)) safe) eqn:E.
  - cbn [is_ascii forallb]. rewrite andb_true_r.
    apply orb_true_iff in E as [E|E]; [apply always_safe_ascii; exact E|].
    apply existsb_exists in E as (c & Hin & Hc).
    apply N.eqb_eq in Hc. subst c.
    unfold is_ascii in Hsafe. rewrite forallb_forall in Hsafe.
    apply Hsafe. exact Hin.
  - pose proof (bv_bound b) as Hb.
    cbn [is_ascii forallb].
    rewrite !hex_upper_ascii; [reflexivity| |].
    + apply N.mod_upper_bound. lia.
    + apply N.Div0.div_lt_upper_bound. lia.
Qed.

Lemma quote_from_bytes_ascii (safe : list N) (bs : bytes) :
  is_ascii safe = true -> is_ascii (quote_from_bytes safe bs) = true.
Proof.
  intros Hsafe. unfold quote_from_bytes.
  induction bs as [|b bs IH]; cbn [flat_map].
  - reflexivity.
  - rewrite is_ascii_app, IH, quote_byte_ascii by exact Hsafe. reflexivity.
Qed.

Lemma replace_char_ascii (old new : N) (s : str) :
  (new <? 128)%N = true -> is_ascii s = true ->
  is_ascii (replace_char old new s) = true.
Proof.
  intros Hnew. unfold replace_char, is_ascii.
  induction s as [|c s IH]; cbn [map forallb]; [reflexivity|].
  intros H. apply andb_true_iff in H as [Hc Hs].
  rewrite (IH Hs). destruct (c =? old)%N; [rewrite Hnew|rewrite Hc]; reflexivity.
Qed.

Lemma quote_plus_bytes_ascii (bs : bytes) :
  is_ascii (quote_plus_bytes bs) = true.
Proof.
  unfold quote_plus_bytes.
  destruct (existsb _ bs).
  - apply replace_char_ascii; [reflexivity|].
    apply quote_from_bytes_ascii. reflexivity.
  - apply quote_from_bytes_ascii. reflexivity.
Qed.

Lemma quote_plus_ascii (v : pyval) (s : str) :
  quote_plus v = Ok s -> is_ascii s = true.
Proof.
  destruct v as [t|b]; cbn [quote_plus].
  - destruct (encode_utf8 t) as [bs|e]; cbn [rbind]; [|discriminate].
    intros [= <-]. apply quote_plus_bytes_ascii.
  - intros [= <-]. apply quote_plus_bytes_ascii.
Qed.

Lemma join_ascii (sep : str) (parts : list str) :
  is_ascii sep = true -> forallb is_ascii parts = true ->
  is_ascii (join sep parts) = true.
Proof.
  intros Hsep. induction parts as [|p parts IH]; cbn [forallb join].
  - reflexivity.
  - intros H. apply andb_true_iff in H as [Hp Hparts].
    destruct parts as [|p' parts]; [exact Hp|].
    rewrite !is_ascii_app, Hp, Hsep, (IH Hparts). reflexivity.
Qed.

Lemma urlencode_items_ascii (query : dict) (l : list str) :
  urlencode_items query = Ok l -> forallb is_ascii l = true.
Proof.
  revert l. induction query as [|[k v] query IH]; intros l;
    cbn [urlencode_items].
  - intros [= <-]. reflexivity.
  - destruct (quote_plus (VStr k)) as [k'|] eqn:Hk; cbn [rbind]; [|discriminate].
    destruct (quote_plus v) as [v'|] eqn:Hv; cbn [rbind]; [|discriminate].
    destruct (urlencode_items query) as [l'|]; cbn [rbind]; [|discriminate].
    intros H%Ok_inj. subst l. cbn [forallb].
    rewrite !is_ascii_app, (quote_plus_ascii _ _ Hk), (quote_plus_ascii _ _ Hv).
    rewrite (IH l' eq_refl). reflexivity.
Qed.

(** An encoded query string is ASCII text. *)
Lemma urlencode_ascii (query : dict) (q : str) :
  urlencode query = Ok q -> is_ascii q = true.
Proof.
  unfold urlencode.
  destruct (urlencode_items query) as [l|] eqn:Hl; cbn [rbind]; [|discriminate].
  intros [= <-]. apply join_ascii; [reflexivity|].
  apply (urlencode_items_ascii _ _ Hl).
Qed.

(** Text without surrogates can be encoded, so [urlencode] cannot fail
    on it. *)
Lemma encode_utf8_total (s : str) :
  scalar_text s = true -> exists bs, encode_utf8 s = Ok bs.
Proof.
  induction s as [|c s IH]; cbn [scalar_text forallb encode_utf8].
  - eexists; reflexivity.
  - intros H. apply andb_true_iff in H as [Hc Hs].
    destruct (IH Hs) as [bs Hbs]. rewrite Hbs.
    unfold utf8_char, scalar in *.
    destruct (c <? 0x80)%N; [eexists; reflexivity|].
    destruct (c <? 0x800)%N; [eexists; reflexivity|].
    destruct (c <? 0xD800)%N eqn:E1.
    + assert (E2 : (0xD800 <=? c)%N = false) by
        (apply N.leb_gt; apply N.ltb_lt in E1; exact E1).
      rewrite E2. cbn [andb].
      destruct (c <? 0x10000)%N; [eexists; reflexivity|].
      destruct (c <? 0x110000)%N eqn:E3; [eexists; reflexivity|].
      apply N.ltb_lt in E1. apply N.ltb_ge in E3. lia.
    + cbn [orb] in Hc. apply andb_true_iff in Hc as [Hlo Hhi].
      assert (E2 : (c <? 0xE000)%N = false) by
        (apply N.ltb_ge; apply N.leb_le in Hlo; exact Hlo).
      rewrite E2, andb_false_r.
      destruct (c <? 0x10000)%N; [eexists; reflexivity|].
      rewrite Hhi. eexists; reflexivity.
Qed.

Lemma quote_plus_total (v : pyval) :
  scalar_value v = true -> exists s, quote_plus v = Ok s.
Proof.
  destruct v as [t|b]; cbn [scalar_value quote_plus].
  - intros H. destruct (encode_utf8_total t H) as [bs ->].
    eexists; reflexivity.
  - intros _. eexists; reflexivity.
Qed.

Lemma urlencode_items_total (query : dict) :
  scalar_dict query = true -> exists l, urlencode_items query = Ok l.
Proof.
  induction query as [|[k v] query IH]; cbn [scalar_dict forallb urlencode_items].
  - eexists; reflexivity.
  - intros H. apply andb_true_iff in H as [Hkv Hq].
    cbn [fst snd] in Hkv. apply andb_true_iff in Hkv as [Hk Hv].
    destruct (quote_plus_total (VStr k) Hk) as [k' ->].
    destruct (quote_plus_total v Hv) as [v' ->].
    destruct (IH Hq) as [l ->]. eexists; reflexivity.
Qed.

Lemma urlencode_total (query : dict) :
  scalar_dict query = true -> exists q, urlencode query = Ok q.
Proof.
  intros H. unfold urlencode.
  destruct (urlencode_items_total query H) as [l ->]. eexists; reflexivity.
Qed.

(** The only exception [urlencode] raises is [UnicodeEncodeError], from
    text that UTF-8 cannot encode. *)
Lemma encode_utf8_raises (s : str) (e : exn) :
  encode_utf8 s = Raise e -> e = UnicodeEncodeError "utf-8".
Proof.
  induction s as [|c s IH]; cbn [encode_utf8]; [discriminate|].
  destruct (utf8_char c) as [bs|e0] eqn:Hc; cbn [rbind].
  - destruct (encode_utf8 s) as [more|e1]; cbn [rbind]; [discriminate|].
    intros H. apply Raise_inj in H. subst e1. apply IH. reflexivity.
  - intros H. apply Raise_inj in H. subst e0.
    unfold utf8_char in Hc.
    repeat match type of Hc with
           | (if ?b then _ else _) = _ => destruct b
           end;
      try discriminate Hc; apply Raise_inj in Hc; symmetry; exact Hc.
Qed.

Lemma quote_plus_raises (v : pyval) (e : exn) :
  quote_plus v = Raise e -> e = UnicodeEncodeError "utf-8".
Proof.
  destruct v as [t|b]; cbn [quote_plus]; [|discriminate].
  destruct (encode_utf8 t) as [bs|e0] eqn:Ht; cbn [rbind]; [discriminate|].
  intros H. apply Raise_inj in H. subst e0. exact (encode_utf8_raises _ _ Ht).
Qed.

Lemma urlencode_raises (query : dict) (e : exn) :
  urlencode query = Raise e -> e = UnicodeEncodeError "utf-8".
Proof.
  unfold urlencode.
  destruct (urlencode_items query) as [l|e0] eqn:Hl; cbn [rbind];
    [discriminate|].
  intros H. apply Raise_inj in H. subst e0.
  revert Hl. induction query as [|[k v] query IH]; cbn [urlencode_items];
    [discriminate|].
  destruct (quote_plus (VStr k)) as [k'|e1] eqn:Hk; cbn [rbind].
  2:{ intros H. apply Raise_inj in H. subst e1.
      exact (quote_plus_raises _ _ Hk). }
  destruct (quote_plus v) as [v'|e2] eqn:Hv; cbn [rbind].
  2:{ intros H. apply Raise_inj in H. subst e2.
      exact (quote_plus_raises _ _ Hv). }
  destruct (urlencode_items query) as [l|e3]; cbn [rbind]; [discriminate|].
  intros H. apply Raise_inj in H. subst e3. apply IH. reflexivity.
Qed.

Lemma scalar_dict_set (k : str) (v : pyval) (d : dict) :
  scalar_text k = true -> scalar_value v = true -> scalar_dict d = true ->
  scalar_dict (dict_set k v d) = true.
Proof.
  intros Hk Hv. induction d as [|[k' v'] d IH]; cbn [dict_set scalar_dict forallb].
  - cbn [fst snd]. rewrite Hk, Hv. reflexivity.
  - intros H. apply andb_true_iff in H as [Hkv Hd]. cbn [fst snd] in Hkv.
    apply andb_true_iff in Hkv as [Hk' Hv'].
    destruct (decide (k' = k)); cbn [forallb fst snd].
    + rewrite Hk', Hv. exact Hd.
    + rewrite Hk', Hv'. exact (IH Hd).
Qed.

Lemma ascii_is_scalar (s : str) : is_ascii s = true -> scalar_text s = true.
Proof.
  unfold is_ascii, scalar_text. induction s as [|c s IH]; cbn [forallb].
  - reflexivity.
  - intros H. apply andb_true_iff in H as [Hc Hs]. rewrite (IH Hs).
    unfold scalar. apply N.ltb_lt in Hc.
    assert (E : (c <? 0xD800)%N = true) by (apply N.ltb_lt; lia).
    rewrite E. reflexivity.
Qed.

(* ===================================================================== *)
(** ** Hexadecimal key text *)
(* ===================================================================== *)

Lemma hex_digit_not_space (c : N) :
  is_Some (hex_value c) -> is_space c = false.
Proof.
  unfold hex_value, is_space. intros [n Hn].
  destruct ((48 <=? c)%N && (c <=? 57)%N) eqn:E1;
    [|destruct ((97 <=? c)%N && (c <=? 102)%N) eqn:E2;
      [|destruct ((65 <=? c)%N && (c <=? 70)%N) eqn:E3; [|discriminate]]];
    match goal with
    | X : _ && _ = true |- _ =>
        apply andb_true_iff in X as [Hlo Hhi];
        apply N.leb_le in Hlo; apply N.leb_le in Hhi
    end;
    apply orb_false_iff; split;
    [apply N.eqb_neq; lia | apply andb_false_iff; right; apply N.leb_gt; lia
    |apply N.eqb_neq; lia | apply andb_false_iff; right; apply N.leb_gt; lia
    |apply N.eqb_neq; lia | apply andb_false_iff; right; apply N.leb_gt; lia].
Qed.

(** [fromhex] accepts valid hexadecimal text... *)
Lemma fromhex_accepts (s : str) :
  hex_text s -> exists key, fromhex s = Ok key.
Proof.
  induction 1 as [|c s Hc _ [key IH]|c d s Hc Hd _ [key IH]].
  - exists []. reflexivity.
  - exists key. cbn [fromhex]. rewrite Hc. exact IH.
  - pose proof (hex_digit_not_space c Hc) as Hsp.
    destruct Hc as [top Htop], Hd as [bot Hbot].
    exists (nbyte (16 * top + bot) :: key).
    cbn [fromhex]. rewrite Hsp, Htop, Hbot, IH. reflexivity.
Qed.

(** ... and nothing else. *)
Lemma fromhex_only_hex_text (s : str) (key : bytes) :
  fromhex s = Ok key -> hex_text s.
Proof.
  remember (length s) as n eqn:Hn.
  revert s key Hn.
  induction n as [n IH] using lt_wf_ind. intros s key Hn.
  destruct s as [|c rest]; [intros _; constructor|].
  cbn [fromhex].
  destruct (is_space c) eqn:Hsp.
  - intros H. apply hex_text_space; [exact Hsp|].
    apply (IH (length rest)) with (key := key);
      [subst n; cbn [length]; lia | reflexivity | exact H].
  - destruct (hex_value c) as [top|] eqn:Htop; [|discriminate].
    destruct rest as [|d rest']; [discriminate|].
    destruct (hex_value d) as [bot|] eqn:Hbot; [|discriminate].
    destruct (fromhex rest') as [bs|] eqn:Hrest; cbn [rbind]; [|discriminate].
    intros _. apply hex_text_pair; [eexists; exact Htop|eexists; exact Hbot|].
    apply (IH (length rest')) with (key := bs);
      [subst n; cbn [length]; lia | reflexivity | exact Hrest].
Qed.

Lemma fromhex_ok_iff (s : str) :
  hex_text s <-> exists key, fromhex s = Ok key.
Proof.
  split; [apply fromhex_accepts|].
  intros [key H]. exact (fromhex_only_hex_text s key H).
Qed.

(** The only exception [fromhex] raises is [ValueError]. *)
Lemma fromhex_raises (s : str) (e : exn) :
  fromhex s = Raise e ->
  e = ValueError "non-hexadecimal number found in fromhex() arg".
Proof.
  remember (length s) as n eqn:Hn.
  revert s Hn.
  induction n as [n IH] using lt_wf_ind. intros s Hn.
  destruct s as [|c rest]; [discriminate|].
  cbn [fromhex].
  destruct (is_space c).
  - apply (IH (length rest)); [subst n; cbn [length]; lia | reflexivity].
  - destruct (hex_value c); [|intros [= <-]; reflexivity].
    destruct rest as [|d rest']; [intros [= <-]; reflexivity|].
    destruct (hex_value d); [|intros [= <-]; reflexivity].
    destruct (fromhex rest') as [bs|e'] eqn:Hrest; cbn [rbind]; [discriminate|].
    intros [= <-].
    apply (IH (length rest')) with (s := rest');
      [subst n; cbn [length]; lia | reflexivity | exact Hrest].
Qed.

Lemma fromhex_rejects (s : str) :
  ~ hex_text s ->
  fromhex s = Raise (ValueError "non-hexadecimal number found in fromhex() arg").
Proof.
  intros Hbad. destruct (fromhex s) as [key|e] eqn:H.
  - exfalso. apply Hbad. exact (fromhex_only_hex_text s key H).
  - rewrite (fromhex_raises s e H). reflexivity.
Qed.

Example shipped_auth_key_is_hex :
  result_map (@length byte) (fromhex (hmac_secret_key auth_shipped)) = Ok 64%nat.
Proof. vm_compute. reflexivity. Qed.

Lemma shipped_auth_key_decodes :
  fromhex (hmac_secret_key auth_shipped) = Ok auth_shipped_key.
Proof. vm_compute. reflexivity. Qed.

Example shipped_hmac_key_is_not_hex :
  fromhex (hmac_secret_key hmac_shipped)
  = Raise (ValueError "non-hexadecimal number found in fromhex() arg").
Proof. vm_compute. reflexivity. Qed.

(* ===================================================================== *)
(** ** Decoding a response body *)
(* ===================================================================== *)


(* ===================================================================== *)
(** ** Running a script step by step *)
(* ===================================================================== *)

Lemma bind_Ok {A B} (m : M A) (k : A -> M B) (w w' : World) (a : A) :
  m w = (Ok a, w') -> bind m k w = k a w'.
Proof. intros H. unfold bind. rewrite H. reflexivity. Qed.

Lemma bind_Raise {A B} (m : M A) (k : A -> M B) (w w' : World) (e : exn) :
  m w = (Raise e, w') -> bind m k w = (Raise e, w').
Proof. intros H. unfold bind. rewrite H. reflexivity. Qed.

Lemma lift_run {A} (r : result A) (w : World) : lift r w = (r, w).
Proof. reflexivity. Qed.

Lemma dict_load_run (l : loc) (k : str) (v : pyval) (w : World) :
  dict_get k (deref (heap w) l) = Some v -> dict_load l k w = (Ok v, w).
Proof. intros H. unfold dict_load. rewrite H. reflexivity. Qed.

(** One step of a script whose first action succeeds by computation. *)
Ltac step :=
  erewrite bind_Ok by reflexivity;
  unfold set_heap;
  cbn [heap clock clock_reads transport sent console].

(** One step whose first action is [lift r] with [r] known from [H]. *)
Ltac step_lift H :=
  erewrite bind_Ok
    by (rewrite lift_run; refine (f_equal (fun r => (r, _)) H));
  cbn [heap clock clock_reads transport sent console].

(* ===================================================================== *)
(** ** [auth_request_as_hmac] *)
(* ===================================================================== *)

Lemma header_text_ascii (cfg : Config) (now : Z) :
  is_ascii (client_id cfg) = true -> is_ascii (header_text cfg now) = true.
Proof.
  intros Hcid. unfold header_text.
  rewrite !is_ascii_app, Hcid, format_x_ascii. reflexivity.
Qed.

Lemma query_suffix_ascii (query : dict) (q : str) :
  urlencode query = Ok q -> is_ascii (query_suffix query q) = true.
Proof.
  intros Hq. destruct query as [|kv query]; cbn [query_suffix]; [reflexivity|].
  rewrite is_ascii_app, (urlencode_ascii _ _ Hq). reflexivity.
Qed.

(** The complete outcome of a call that succeeds: the value returned and
    the state it leaves.  [params] is read after the first two headers
    are stored, hence the look-up in the updated heap. *)
Lemma auth_request_as_hmac_run (cfg : Config) (relative_url : str)
    (params headers : option loc) (body : bytes) (w : World)
    (key : bytes) (q : str) :
  let p := default auth_request_as_hmac_params params in
  let h := default auth_request_as_hmac_headers headers in
  let now := next_time w in
  let d := deref (heap w) h in
  let query := deref (<[h := stamped cfg now d]> (heap w)) p in
  let url_text := relative_url ++ query_suffix query q in
  let payload := ascii_bytes (header_text cfg now ++ url_text) ++ body in
  fromhex (hmac_secret_key cfg) = Ok key ->
  is_ascii (client_id cfg) = true ->
  is_ascii relative_url = true ->
  urlencode query = Ok q ->
  auth_request_as_hmac cfg relative_url params headers body w
  = (Ok (strip 47 (base_url cfg) ++ url_text, h),
     {| heap := <[h := signed_headers cfg now (spec_hmac key payload) d]>
                  (heap w);
        clock := clock w;
        clock_reads := S (clock_reads w);
        transport := transport w;
        sent := sent w;
        console :=
          [ (""%string, []);
            ("{}"%string, [PBytes payload]);
            ("Full payload to be signed:"%string, []);
            (""%string, []);
            ("Secret key: {}"%string, [PStr (bytes2hex key)]);
            ("Authenticating request using HMAC"%string, []) ]
          ++ console w |}).
Proof.
  intros p h now d query url_text payload Hkey Hcid Hurl Hq.
  destruct header_names_distinct as (Hct & Hch & Hth).
  assert (Hu : encode_ascii url_text = Ok (ascii_bytes url_text)).
  { apply encode_ascii_ok. unfold url_text.
    rewrite is_ascii_app, Hurl, (query_suffix_ascii _ _ Hq). reflexivity. }
  pose proof (encode_ascii_ok _ (header_text_ascii cfg now Hcid)) as Hh.
  unfold auth_request_as_hmac. cbv zeta.
  step_lift Hkey. do 3 step.
  step. step. step.
  change (Z.quot (clock w (clock_reads w)) 1000000) with now.
  fold h. rewrite !deref_insert_eq. fold d.
  erewrite bind_Ok;
    [|apply dict_load_run; cbn [heap]; rewrite deref_insert_eq;
      rewrite dict_get_set_ne by (apply not_eq_sym; exact Hct);
      apply dict_get_set_eq].
  cbn [heap clock clock_reads transport sent console].
  erewrite bind_Ok;
    [|apply dict_load_run; cbn [heap]; rewrite deref_insert_eq;
      apply dict_get_set_eq].
  cbn [format_value].
  step_lift Hh. step.
  rewrite insert_insert_eq.
  repeat match goal with
         | |- context [deref ?hp ?pp] =>
             progress change (deref hp pp) with query
         end.
  assert (Hp : ascii_bytes (header_text cfg now) ++ ascii_bytes url_text ++ body
               = payload).
  { unfold payload. rewrite ascii_bytes_app, <- app_assoc. reflexivity. }
  assert (Hsig : hmac key payload = Ok (spec_hmac key payload))
    by apply hmac_refines_spec.
  destruct query as [|kv rest] eqn:Hquery.
  - cbn [query_suffix] in *. unfold url_text in *.
    rewrite app_nil_r in *.
    step. step_lift Hu. rewrite Hp. do 3 step. step_lift Hsig. step.
    unfold ret. rewrite deref_insert_eq, insert_insert_eq. reflexivity.
  - cbn [query_suffix] in *.
    erewrite bind_Ok by (erewrite bind_Ok by (rewrite lift_run, Hq; reflexivity);
                         reflexivity).
    fold url_text.
    step_lift Hu. rewrite Hp. do 3 step. step_lift Hsig. step.
    unfold ret. rewrite deref_insert_eq, insert_insert_eq. reflexivity.
Qed.

(** The state in which [auth_request_as_hmac] encodes the URL: key
    decoded, three lines printed, client id and time stamp stored. *)
Lemma auth_request_as_hmac_prefix (cfg : Config) (relative_url : str)
    (params headers : option loc) (body : bytes) (w : World) (key : bytes)
    (q : str) :
  let p := default auth_request_as_hmac_params params in
  let h := default auth_request_as_hmac_headers headers in
  let now := next_time w in
  let d := deref (heap w) h in
  let query := deref (<[h := stamped cfg now d]> (heap w)) p in
  fromhex (hmac_secret_key cfg) = Ok key ->
  is_ascii (client_id cfg) = true ->
  urlencode query = Ok q ->
  is_ascii relative_url = false ->
  auth_request_as_hmac cfg relative_url params headers body w
  = (Raise (UnicodeEncodeError "ascii"),
     {| heap := <[h := stamped cfg now d]> (heap w);
        clock := clock w;
        clock_reads := S (clock_reads w);
        transport := transport w;
        sent := sent w;
        console :=
          [ (""%string, []);
            ("Secret key: {}"%string, [PStr (bytes2hex key)]);
            ("Authenticating request using HMAC"%string, []) ]
          ++ console w |}).
Proof.
  intros p h now d query Hkey Hcid Hq Hurl.
  destruct header_names_distinct as (Hct & Hch & Hth).
  pose proof (encode_ascii_ok _ (header_text_ascii cfg now Hcid)) as Hh.
  unfold auth_request_as_hmac. cbv zeta.
  step_lift Hkey. do 3 step.
  step. step. step.
  change (Z.quot (clock w (clock_reads w)) 1000000) with now.
  fold h. rewrite !deref_insert_eq. fold d.
  erewrite bind_Ok;
    [|apply dict_load_run; cbn [heap]; rewrite deref_insert_eq;
      rewrite dict_get_set_ne by (apply not_eq_sym; exact Hct);
      apply dict_get_set_eq].
  cbn [heap clock clock_reads transport sent console].
  erewrite bind_Ok;
    [|apply dict_load_run; cbn [heap]; rewrite deref_insert_eq;
      apply dict_get_set_eq].
  cbn [format_value].
  step_lift Hh. step.
  rewrite insert_insert_eq.
  repeat match goal with
         | |- context [deref ?hp ?pp] =>
             progress change (deref hp pp) with query
         end.
  assert (Hbad : encode_ascii (relative_url ++ query_suffix query q)
                 = Raise (UnicodeEncodeError "ascii")).
  { apply encode_ascii_raises. rewrite is_ascii_app, Hurl. reflexivity. }
  destruct query as [|kv rest] eqn:Hquery; cbn [query_suffix] in Hbad.
  - rewrite app_nil_r in Hbad.
    step. erewrite bind_Raise; [reflexivity|].
    rewrite lift_run, Hbad. reflexivity.
  - erewrite bind_Ok
      by (erewrite bind_Ok by (rewrite lift_run, Hq; reflexivity); reflexivity).
    erewrite bind_Raise; [reflexivity|].
    rewrite lift_run, Hbad. reflexivity.
Qed.

(** A call of [auth_request_as_hmac] succeeds only on the inputs
    [auth_request_as_hmac_run] is about. *)
Lemma auth_request_as_hmac_success (cfg : Config) (relative_url : str)
    (params headers : option loc) (body : bytes) (w w' : World)
    (r : str * loc) :
  let p := default auth_request_as_hmac_params params in
  let h := default auth_request_as_hmac_headers headers in
  let query :=
    deref (<[h := stamped cfg (next_time w) (deref (heap w) h)]> (heap w)) p in
  auth_request_as_hmac cfg relative_url params headers body w = (Ok r, w') ->
  exists key q,
    fromhex (hmac_secret_key cfg) = Ok key
    /\ is_ascii (client_id cfg) = true
    /\ is_ascii relative_url = true
    /\ urlencode query = Ok q.
Proof.
  intros p h query.
  destruct header_names_distinct as (Hct & Hch & Hth).
  unfold auth_request_as_hmac. cbv zeta.
  destruct (fromhex (hmac_secret_key cfg)) as [key|e] eqn:Hkey.
  2:{ erewrite bind_Raise by (rewrite lift_run; reflexivity). discriminate. }
  erewrite bind_Ok by (rewrite lift_run; reflexivity).
  do 3 step. step. step. step.
  change (Z.quot (clock w (clock_reads w)) 1000000) with (next_time w).
  fold h. rewrite !deref_insert_eq.
  erewrite bind_Ok;
    [|apply dict_load_run; cbn [heap]; rewrite deref_insert_eq;
      rewrite dict_get_set_ne by (apply not_eq_sym; exact Hct);
      apply dict_get_set_eq].
  cbn [heap clock clock_reads transport sent console].
  erewrite bind_Ok;
    [|apply dict_load_run; cbn [heap]; rewrite deref_insert_eq;
      apply dict_get_set_eq].
  cbn [format_value].
  destruct (is_ascii (client_id cfg)) eqn:Hcid.
  2:{ erewrite bind_Raise; [discriminate|].
      rewrite lift_run. apply (f_equal (fun x => (x, _))).
      apply encode_ascii_raises.
      rewrite !is_ascii_app, Hcid, !andb_false_r. reflexivity. }
  step_lift (encode_ascii_ok _ (header_text_ascii cfg (next_time w) Hcid)).
  step. rewrite insert_insert_eq.
  repeat match goal with
         | |- context [deref ?hp ?pp] =>
             progress change (deref hp pp) with query
         end.
  destruct (urlencode query) as [q|e] eqn:Hq.
  2:{ destruct query as [|kv rest] eqn:Hquery; [discriminate Hq|].
      erewrite bind_Raise; [discriminate|].
      erewrite bind_Raise; reflexivity. }
  destruct (is_ascii relative_url) eqn:Hurl.
  - intros _. exists key, q. repeat split; reflexivity.
  - assert (Hbad : encode_ascii (relative_url ++ query_suffix query q)
                   = Raise (UnicodeEncodeError "ascii")).
    { apply encode_ascii_raises. rewrite is_ascii_app, Hurl. reflexivity. }
    destruct query as [|kv rest] eqn:Hquery; cbn [query_suffix] in Hbad.
    + rewrite app_nil_r in Hbad.
      step. erewrite bind_Raise; [discriminate|].
      rewrite lift_run, Hbad. reflexivity.
    + erewrite bind_Ok by (erewrite bind_Ok by reflexivity; reflexivity).
      erewrite bind_Raise; [discriminate|].
      rewrite lift_run, Hbad. reflexivity.
Qed.

(** With a key that decodes, the only exception a call raises is
    [UnicodeEncodeError]: from the header text, the query or the URL. *)
Lemma auth_request_as_hmac_raises (cfg : Config) (relative_url : str)
    (params headers : option loc) (body : bytes) (w w' : World) (e : exn) :
  hex_text (hmac_secret_key cfg) ->
  auth_request_as_hmac cfg relative_url params headers body w = (Raise e, w') ->
  exists what, e = UnicodeEncodeError what.
Proof.
  intros Hhex.
  destruct (fromhex_accepts _ Hhex) as [key Hkey].
  set (p := default auth_request_as_hmac_params params).
  set (h := default auth_request_as_hmac_headers headers).
  set (query :=
         deref (<[h := stamped cfg (next_time w) (deref (heap w) h)]> (heap w)) p).
  destruct (is_ascii (client_id cfg)) eqn:Hcid.
  2:{ destruct header_names_distinct as (Hct & Hch & Hth).
      unfold auth_request_as_hmac. cbv zeta.
      step_lift Hkey. do 3 step. step. step. step.
      change (Z.quot (clock w (clock_reads w)) 1000000) with (next_time w).
      fold h. rewrite !deref_insert_eq.
      erewrite bind_Ok;
        [|apply dict_load_run; cbn [heap]; rewrite deref_insert_eq;
          rewrite dict_get_set_ne by (apply not_eq_sym; exact Hct);
          apply dict_get_set_eq].
      cbn [heap clock clock_reads transport sent console].
      erewrite bind_Ok;
        [|apply dict_load_run; cbn [heap]; rewrite deref_insert_eq;
          apply dict_get_set_eq].
      cbn [format_value].
      erewrite bind_Raise;
        [intros H; apply (f_equal fst) in H; cbn [fst] in H;
         eexists; symmetry; exact (Raise_inj _ _ H)|].
      rewrite lift_run. apply (f_equal (fun x => (x, _))).
      apply encode_ascii_raises.
      rewrite !is_ascii_app, Hcid, !andb_false_r. reflexivity. }
  destruct (urlencode query) as [q|e'] eqn:Hq.
  2:{ destruct header_names_distinct as (Hct & Hch & Hth).
      pose proof (urlencode_raises _ _ Hq) as He'. subst e'.
      unfold auth_request_as_hmac. cbv zeta.
      step_lift Hkey. do 3 step. step. step. step.
      change (Z.quot (clock w (clock_reads w)) 1000000) with (next_time w).
      fold h. rewrite !deref_insert_eq.
      erewrite bind_Ok;
        [|apply dict_load_run; cbn [heap]; rewrite deref_insert_eq;
          rewrite dict_get_set_ne by (apply not_eq_sym; exact Hct);
          apply dict_get_set_eq].
      cbn [heap clock clock_reads transport sent console].
      erewrite bind_Ok;
        [|apply dict_load_run; cbn [heap]; rewrite deref_insert_eq;
          apply dict_get_set_eq].
      cbn [format_value].
      step_lift (encode_ascii_ok _ (header_text_ascii cfg (next_time w) Hcid)).
      step. rewrite insert_insert_eq.
      repeat match goal with
             | |- context [deref ?hp ?pp] =>
                 progress change (deref hp pp) with query
             end.
      destruct query as [|kv rest] eqn:Hquery; [discriminate Hq|].
      erewrite bind_Raise;
        [intros H; apply (f_equal fst) in H; cbn [fst] in H;
         eexists; symmetry; exact (Raise_inj _ _ H)|].
      erewrite bind_Raise; [reflexivity|].
      rewrite lift_run, Hq. reflexivity. }
  destruct (is_ascii relative_url) eqn:Hurl.
  - rewrite (auth_request_as_hmac_run cfg relative_url params headers body w
               key q Hkey Hcid Hurl Hq).
    discriminate.
  - rewrite (auth_request_as_hmac_prefix cfg relative_url params headers body w
               key q Hkey Hcid Hq Hurl).
    intros H. apply (f_equal fst) in H. cbn [fst] in H.
    eexists. symmetry. exact (Raise_inj _ _ H).
Qed.

(** C2, as stated, fails when one dictionary is passed as [params] and
    as [headers]: the dictionary is empty when the call is made, yet
    the URL that is signed and returned has [?] and the two header
    entries, which were stored in it before the query was read. *)
Lemma shared_dictionary_is_signed_as_query :
  deref (heap quiet) 9%positive = []
  /\ fst (auth_request_as_hmac auth_shipped (u "/x") (Some 9%positive)
            (Some 9%positive) [] quiet)
     = Ok (u "https://api.origins-china.cn/v1/x?X-Kaiterra-Client=2c13f157da77&X-Kaiterra-Time=0",
           9%positive)
  /\ In ("{}"%string,
         [PBytes (b_lit "X-Kaiterra-Client=2c13f157da77&X-Kaiterra-Time=0/x?X-Kaiterra-Client=2c13f157da77&X-Kaiterra-Time=0")])
        (console (snd (auth_request_as_hmac auth_shipped (u "/x")
                         (Some 9%positive) (Some 9%positive) [] quiet))).
Proof.
  split; [reflexivity|]. split.
  - vm_compute. reflexivity.
  - vm_compute. right. left. reflexivity.
Qed.

(** C2, amended.  When the secret key is valid hexadecimal, the client
    id and the relative URL are ASCII and the query can be encoded,
    [auth_request_as_hmac] signs exactly the bytes of
    [X-Kaiterra-Client=<client_id>&X-Kaiterra-Time=<hex time>], then the
    relative URL (followed by [?] and the encoded query if and only if
    the query is not empty), then the body, with nothing in between.
    The query is the [params] dictionary as it is once the client id
    and the time stamp are stored in the headers: the dictionary the
    caller gave when [params] and [headers] are distinct objects, that
    dictionary with the two header entries when they are one object.
    The clock is read once, the signature is the 32-byte HMAC-SHA256 of
    those bytes under the decoded key, and the headers returned hold the
    client id, the hexadecimal time stamp and the base64 text of the
    signature. *)
Theorem auth_request_as_hmac_signs (cfg : Config) (relative_url : str)
    (params headers : option loc) (body : bytes) (w : World)
    (key : bytes) (q : str) :
  let p := default auth_request_as_hmac_params params in
  let h := default auth_request_as_hmac_headers headers in
  let now := next_time w in
  let query := deref (<[h := stamped cfg now (deref (heap w) h)]> (heap w)) p in
  let url_text := relative_url ++ query_suffix query q in
  let payload := ascii_bytes (header_text cfg now ++ url_text) ++ body in
  let signature := spec_hmac key payload in
  fromhex (hmac_secret_key cfg) = Ok key ->
  is_ascii (client_id cfg) = true ->
  is_ascii relative_url = true ->
  urlencode query = Ok q ->
  exists w' : World,
    auth_request_as_hmac cfg relative_url params headers body w
    = (Ok (strip 47 (base_url cfg) ++ url_text, h), w')
    /\ (p <> h -> query = deref (heap w) p)
    /\ (p = h -> query = stamped cfg now (deref (heap w) h))
    /\ (query = [] -> url_text = relative_url)
    /\ (query <> [] -> url_text = relative_url ++ u "?" ++ q)
    /\ hmac key payload = Ok signature
    /\ length signature = 32%nat
    /\ console w'
       = [ (""%string, []);
           ("{}"%string, [PBytes payload]);
           ("Full payload to be signed:"%string, []);
           (""%string, []);
           ("Secret key: {}"%string, [PStr (bytes2hex key)]);
           ("Authenticating request using HMAC"%string, []) ]
         ++ console w
    /\ dict_get client_header (deref (heap w') h)
       = Some (VStr (client_id cfg))
    /\ dict_get timestamp_header (deref (heap w') h)
       = Some (VStr (format_x now))
    /\ dict_get hmac_header (deref (heap w') h)
       = Some (VBytes (b64encode signature))
    /\ clock_reads w' = S (clock_reads w).
Proof.
  intros p h now query url_text payload signature Hkey Hcid Hurl Hq.
  destruct header_names_distinct as (Hct & Hch & Hth).
  pose proof (auth_request_as_hmac_run cfg relative_url params headers body w
                key q Hkey Hcid Hurl Hq) as Hrun.
  cbv zeta in Hrun. fold p h now query url_text payload signature in Hrun.
  eexists. split; [exact Hrun|].
  split; [intros Hne; apply deref_insert_ne; congruence|].
  split; [intros Heq; unfold query; rewrite Heq; apply deref_insert_eq|].
  split; [intros Hempty; unfold url_text; rewrite Hempty; apply app_nil_r|].
  split.
  { intros Hne. unfold url_text. destruct query; [contradiction|reflexivity]. }
  split; [apply hmac_refines_spec|].
  split; [apply sha256_digest_length|].
  split; [reflexivity|].
  cbn [heap clock_reads]. rewrite deref_insert_eq.
  unfold signed_headers, stamped.
  repeat split.
  - rewrite !dict_get_set_ne by congruence. apply dict_get_set_eq.
  - rewrite dict_get_set_ne by congruence. apply dict_get_set_eq.
  - apply dict_get_set_eq.
Qed.

Lemma auth_request_as_hmac_signs_witness :
  exists w' : World,
    auth_request_as_hmac auth_shipped (u "/lasereggs/abc") None None []
      (fresh 1597463007000000 (always {| status_code := 200; content := [] |}))
    = (Ok (u "https://api.origins-china.cn/v1/lasereggs/abc",
           auth_request_as_hmac_headers), w')
    /\ dict_get hmac_header (deref (heap w') auth_request_as_hmac_headers)
       = Some (VBytes
                 (b64encode
                    (spec_hmac auth_shipped_key
                       (b_lit "X-Kaiterra-Client=2c13f157da77&X-Kaiterra-Time=5f3759df/lasereggs/abc")))).
Proof.
  destruct (auth_request_as_hmac_signs auth_shipped (u "/lasereggs/abc")
              None None []
              (fresh 1597463007000000
                 (always {| status_code := 200; content := [] |}))
              auth_shipped_key [])
    as (w' & Hrun & _ & _ & _ & _ & _ & _ & _ & _ & _ & Hh & _).
  - vm_compute. reflexivity.
  - reflexivity.
  - reflexivity.
  - reflexivity.
  - exists w'. split; [exact Hrun|exact Hh].
Defined.

(** The end-to-end value for the shipped credentials of
    [restv1-auth.py] at time [5f3759df]. *)
Example signed_request_fixture :
  let w' := snd (auth_request_as_hmac auth_shipped (u "/lasereggs/abc")
                   None None []
                   (fresh 1597463007000000
                      (always {| status_code := 200; content := [] |}))) in
  dict_get hmac_header (deref (heap w') auth_request_as_hmac_headers)
  = Some (VBytes (b_lit "b6zIeh+Z0L0BNDIZMODOO+w+1TXRfdgph2OQ0GOj8cU=")).
Proof. vm_compute. reflexivity. Qed.

(** Signing stops at once on a key that is not hexadecimal text: nothing
    is printed or stored before [ValueError] is raised. *)
Lemma auth_request_as_hmac_bad_key (cfg : Config) (relative_url : str)
    (params headers : option loc) (body : bytes) (w : World) :
  ~ hex_text (hmac_secret_key cfg) ->
  auth_request_as_hmac cfg relative_url params headers body w
  = (Raise (ValueError "non-hexadecimal number found in fromhex() arg"), w).
Proof.
  intros Hbad. unfold auth_request_as_hmac. cbv zeta.
  erewrite bind_Raise; [reflexivity|].
  rewrite lift_run, (fromhex_rejects _ Hbad). reflexivity.
Qed.

(** C7, as stated, fails: with the valid hexadecimal key
    [restv1-auth.py] ships with, a relative URL that has a non-ASCII
    character ("/é") makes [auth_request_as_hmac] raise
    [UnicodeEncodeError]. *)
Lemma signing_fails_on_non_ascii_url :
  hex_text (hmac_secret_key auth_shipped)
  /\ fst (auth_request_as_hmac auth_shipped [47%N; 233%N] None None []
            quiet)
     = Raise (UnicodeEncodeError "ascii").
Proof.
  split.
  - apply fromhex_ok_iff. exists auth_shipped_key. vm_compute. reflexivity.
  - vm_compute. reflexivity.
Qed.

(** C7, amended.  A secret-key text that is not valid hexadecimal makes
    [auth_request_as_hmac] raise [ValueError]; when it is valid
    hexadecimal, the client id and the relative URL are ASCII text and
    the text in [params] has no surrogate code point, the call succeeds
    for every params mapping, headers mapping and body; and with a valid
    hexadecimal key a client id or a relative URL that has a non-ASCII
    character makes the call raise [UnicodeEncodeError]. *)
Theorem signing_error_paths (cfg : Config) (relative_url : str)
    (params headers : option loc) (body : bytes) (w : World) :
  let p := default auth_request_as_hmac_params params in
  (~ hex_text (hmac_secret_key cfg) ->
   exists what,
     auth_request_as_hmac cfg relative_url params headers body w
     = (Raise (ValueError what), w))
  /\ (hex_text (hmac_secret_key cfg) ->
      is_ascii (client_id cfg) = true ->
      is_ascii relative_url = true ->
      scalar_dict (deref (heap w) p) = true ->
      exists r w',
        auth_request_as_hmac cfg relative_url params headers body w
        = (Ok r, w'))
  /\ (hex_text (hmac_secret_key cfg) ->
      is_ascii (client_id cfg) = false \/ is_ascii relative_url = false ->
      exists what w',
        auth_request_as_hmac cfg relative_url params headers body w
        = (Raise (UnicodeEncodeError what), w')).
Proof.
  intros p. split; [|split].
  - intros Hbad. eexists.
    apply auth_request_as_hmac_bad_key. exact Hbad.
  - intros Hhex Hcid Hurl Hscalar.
    destruct (fromhex_accepts _ Hhex) as [key Hkey].
    set (h := default auth_request_as_hmac_headers headers).
    set (now := next_time w).
    set (query := deref (<[h := stamped cfg now (deref (heap w) h)]> (heap w)) p).
    assert (Hquery : scalar_dict query = true).
    { unfold query. destruct (decide (h = p)) as [Heq|Hne].
      - rewrite Heq, deref_insert_eq. unfold stamped.
        apply scalar_dict_set; [reflexivity| |].
        + cbn [scalar_value]. apply ascii_is_scalar, format_x_ascii.
        + apply scalar_dict_set; [reflexivity| |exact Hscalar].
          cbn [scalar_value]. apply ascii_is_scalar, Hcid.
      - rewrite deref_insert_ne by exact Hne. exact Hscalar. }
    destruct (urlencode_total query Hquery) as [q Hq].
    eexists. eexists.
    apply (auth_request_as_hmac_run cfg relative_url params headers body w
             key q Hkey Hcid Hurl Hq).
  - intros Hhex Hbad.
    destruct (auth_request_as_hmac cfg relative_url params headers body w)
      as [[r|e] w'] eqn:Hrun.
    + destruct (auth_request_as_hmac_success _ _ _ _ _ _ _ _ Hrun)
        as (_ & _ & _ & Hcid & Hurl & _).
      destruct Hbad as [Hbad|Hbad]; congruence.
    + destruct (auth_request_as_hmac_raises _ _ _ _ _ _ _ _ Hhex Hrun)
        as [what ->].
      exists what, w'. reflexivity.
Qed.

Lemma signing_error_paths_witness :
  (exists what,
     auth_request_as_hmac hmac_shipped (u "/lasereggs/abc") None None []
       quiet
     = (Raise (ValueError what),
        fresh 0 (always {| status_code := 200; content := [] |})))
  /\ (exists r w',
        auth_request_as_hmac auth_shipped (u "/lasereggs/abc") None None []
          quiet
        = (Ok r, w'))
  /\ (exists what w',
        auth_request_as_hmac non_ascii_client (u "/lasereggs/abc") None None
          [] quiet
        = (Raise (UnicodeEncodeError what), w')).
Proof.
  split; [|split].
  - apply (proj1 (signing_error_paths hmac_shipped (u "/lasereggs/abc")
                    None None []
                    quiet)).
    intros Hhex. apply fromhex_accepts in Hhex as [key Hkey].
    vm_compute in Hkey. discriminate Hkey.
  - apply (proj1 (proj2 (signing_error_paths auth_shipped (u "/lasereggs/abc")
                           None None []
                           quiet))).
    + apply fromhex_ok_iff. exists auth_shipped_key. vm_compute. reflexivity.
    + reflexivity.
    + reflexivity.
    + reflexivity.
  - apply (proj2 (proj2 (signing_error_paths non_ascii_client
                           (u "/lasereggs/abc") None None [] quiet))).
    + apply fromhex_ok_iff. exists auth_shipped_key. vm_compute. reflexivity.
    + left. reflexivity.
Defined.

(* ===================================================================== *)
(** ** [auth_request_as_url] *)
(* ===================================================================== *)

(** The outcome of a call, whether the query can be encoded or not: the
    key is stored in the [params] object first. *)
Lemma auth_request_as_url_run (cfg : Config) (relative_url : str)
    (params headers : option loc) (body : bytes) (w : World) :
  let p := default auth_request_as_url_params params in
  let h := default auth_request_as_url_headers headers in
  let query := dict_set (u "key") (VStr (dev_demo_key cfg)) (deref (heap w) p) in
  auth_request_as_url cfg relative_url params headers body w
  = (result_map
       (fun q => (strip 47 (base_url cfg) ++ relative_url ++ u "?" ++ q, h))
       (urlencode query),
     set_heap (<[p := query]> (heap w)) w).
Proof.
  intros p h query. unfold auth_request_as_url. cbv zeta.
  erewrite bind_Ok by reflexivity.
  erewrite bind_Ok by reflexivity.
  unfold set_heap at 1. cbn [heap]. fold p. rewrite deref_insert_eq.
  fold query. unfold bind, lift, ret.
  destruct (urlencode query); reflexivity.
Qed.







(** Success, inverted: the value returned and the state left are the
    ones of [auth_request_as_hmac_run]. *)
Lemma auth_request_as_hmac_Ok (cfg : Config) (relative_url : str)
    (params headers : option loc) (body : bytes) (w w' : World)
    (r : str * loc) :
  let h := default auth_request_as_hmac_headers headers in
  auth_request_as_hmac cfg relative_url params headers body w = (Ok r, w') ->
  exists signature,
    snd r = h
    /\ heap w' = <[h := signed_headers cfg (next_time w) signature
                          (deref (heap w) h)]> (heap w)
    /\ transport w' = transport w
    /\ sent w' = sent w.
Proof.
  intros h Hrun.
  destruct (auth_request_as_hmac_success _ _ _ _ _ _ _ _ Hrun)
    as (key & q & Hkey & Hcid & Hurl & Hq).
  rewrite (auth_request_as_hmac_run cfg relative_url params headers body w
             key q Hkey Hcid Hurl Hq) in Hrun.
  injection Hrun as <- <-. eexists. repeat split.
Qed.

(* ===================================================================== *)
(** ** What a script leaves untouched *)
(* ===================================================================== *)

Lemma keeps_bind {X A B} (f : World -> X) (m : M A) (k : A -> M B) :
  keeps f m -> (forall a, keeps f (k a)) -> keeps f (bind m k).
Proof.
  intros Hm Hk w. unfold bind. specialize (Hm w).
  destruct (m w) as [[a|e] w1]; cbn [snd] in *.
  - rewrite Hk. exact Hm.
  - exact Hm.
Qed.

Lemma keeps_ret {X A} (f : World -> X) (a : A) : keeps f (ret a).
Proof. intros w. reflexivity. Qed.

Lemma keeps_raise {X A} (f : World -> X) (e : exn) : keeps f (raise (A := A) e).
Proof. intros w. reflexivity. Qed.

Lemma keeps_lift {X A} (f : World -> X) (r : result A) : keeps f (lift r).
Proof. intros w. reflexivity. Qed.

Lemma keeps_dict_items {X} (f : World -> X) (l : loc) : keeps f (dict_items l).
Proof. intros w. reflexivity. Qed.

Lemma keeps_read_local {X A} (f : World -> X) (name : string) (v : option A) :
  keeps f (read_local name v).
Proof. destruct v; intros w; reflexivity. Qed.

Lemma keeps_raise_for_status {X} (f : World -> X) (r : Response) :
  keeps f (raise_for_status r).
Proof. unfold raise_for_status. destruct (_ || _); intros w; reflexivity. Qed.

Lemma keeps_heap_print (t : string) (args : list parg) : keeps heap (print t args).
Proof. intros w. reflexivity. Qed.

Lemma keeps_heap_send (rq : HttpRequest) : keeps heap (send rq).
Proof. intros w. reflexivity. Qed.

(** Proves [keeps heap m] for a script [m] that stores nothing. *)
Ltac keeps_heap :=
  repeat first
    [ apply keeps_bind; [|intros ?]
    | apply keeps_ret | apply keeps_raise | apply keeps_lift
    | apply keeps_dict_items | apply keeps_read_local
    | apply keeps_raise_for_status
    | apply keeps_heap_print | apply keeps_heap_send
    | match goal with
      | |- keeps _ (if ?c then _ else _) => destruct c
      end ].

(** [do_get] stores the key in its [params] object and nothing else,
    whatever becomes of the request. *)
Lemma do_get_heap (cfg : Config) (json_loads : str -> result json)
    (relative_url : str) (params headers : option loc) (w : World) :
  let p := default do_get_params params in
  heap (snd (ApiKey.do_get cfg json_loads relative_url params headers w))
  = <[p := dict_set (u "key") (VStr (dev_demo_key cfg)) (deref (heap w) p)]>
      (heap w).
Proof.
  intros p. unfold ApiKey.do_get. cbv zeta.
  erewrite bind_Ok by reflexivity.
  match goal with
  | |- heap (snd (?m ?w1)) = _ =>
      assert (Hk : keeps heap m) by keeps_heap; rewrite (Hk w1)
  end.
  reflexivity.
Qed.

(** The request [do_get] hands to [requests]: the path on the base URL,
    with the key among the parameters. *)
Lemma do_get_sends_key (cfg : Config) (json_loads : str -> result json)
    (relative_url : str) (params headers : option loc) (w : World) :
  let p := default do_get_params params in
  let h := default do_get_headers headers in
  let stored := <[p := dict_set (u "key") (VStr (dev_demo_key cfg))
                         (deref (heap w) p)]> (heap w) in
  exists rq,
    sent (snd (ApiKey.do_get cfg json_loads relative_url params headers w))
    = rq :: sent w
    /\ rq_url rq = strip 47 (base_url cfg) ++ relative_url
    /\ rq_params rq = dict_set (u "key") (VStr (dev_demo_key cfg))
                        (deref (heap w) p)
    /\ rq_headers rq = deref stored h.
Proof.
  intros p h stored. unfold ApiKey.do_get. cbv zeta.
  do 7 step. rewrite deref_insert_eq.
  eexists. split.
  { unfold bind at 1. unfold send at 1.
    cbn [heap clock clock_reads transport sent console].
    destruct (transport w _) as [resp|e]; [|reflexivity].
    match goal with
    | |- sent (snd (?m ?w1)) = _ =>
        assert (Hk : keeps sent m); [|rewrite (Hk w1); reflexivity]
    end.
    repeat first
      [ apply keeps_bind; [|intros ?]
      | apply keeps_ret | apply keeps_raise | apply keeps_lift
      | apply keeps_raise_for_status
      | (intros ?; reflexivity)
      | match goal with
        | |- keeps _ (if ?c then _ else _) => destruct c
        end ]. }
  repeat split.
Qed.

(* ===================================================================== *)
(** ** In-place updates of the caller's dictionaries *)
(* ===================================================================== *)

(** C8.  The authenticators update the dictionary objects they are
    given, or their default-argument objects when none is given, in
    place.  [auth_request_as_url] and [do_get] store the key in the
    [params] object itself, whatever the outcome of the call; a
    successful [auth_request_as_hmac] returns the [headers] object
    itself, updated with the three entries.  Nothing is copied or
    cleared: the object keeps every other entry it held when the call
    started, so what an earlier call left in a default-argument object
    is there in a later call that uses the default: two calls without
    [headers] work on one object, the second finds the signature of the
    first in it and hands on whatever else the object held. *)
Theorem authenticators_mutate_in_place (cfg : Config)
    (json_loads : str -> result json) (relative_url : str)
    (params headers : option loc) (body : bytes) (w : World) :
  (let p := default auth_request_as_url_params params in
   let w' := snd (auth_request_as_url cfg relative_url params headers body w) in
   heap w' = <[p := dict_set (u "key") (VStr (dev_demo_key cfg))
                      (deref (heap w) p)]> (heap w)
   /\ dict_get (u "key") (deref (heap w') p) = Some (VStr (dev_demo_key cfg))
   /\ forall k v, k <> u "key" ->
        dict_get k (deref (heap w) p) = Some v ->
        dict_get k (deref (heap w') p) = Some v)
  /\ (let p := default do_get_params params in
      let w' := snd (ApiKey.do_get cfg json_loads relative_url params headers w) in
      heap w' = <[p := dict_set (u "key") (VStr (dev_demo_key cfg))
                         (deref (heap w) p)]> (heap w)
      /\ dict_get (u "key") (deref (heap w') p)
         = Some (VStr (dev_demo_key cfg))
      /\ forall k v, k <> u "key" ->
           dict_get k (deref (heap w) p) = Some v ->
           dict_get k (deref (heap w') p) = Some v)
  /\ (let h := default auth_request_as_hmac_headers headers in
      forall r w',
        auth_request_as_hmac cfg relative_url params headers body w
        = (Ok r, w') ->
        snd r = h
        /\ (exists signature,
              heap w' = <[h := signed_headers cfg (next_time w) signature
                                 (deref (heap w) h)]> (heap w)
              /\ dict_get hmac_header (deref (heap w') h)
                 = Some (VBytes (b64encode signature)))
        /\ dict_get client_header (deref (heap w') h)
           = Some (VStr (client_id cfg))
        /\ dict_get timestamp_header (deref (heap w') h)
           = Some (VStr (format_x (next_time w)))
        /\ forall k v,
             k <> client_header -> k <> timestamp_header ->
             k <> hmac_header ->
             dict_get k (deref (heap w) h) = Some v ->
             dict_get k (deref (heap w') h) = Some v)
  /\ (forall relative_url2 body2 r1 w1 r2 w2,
        auth_request_as_hmac cfg relative_url None None body w = (Ok r1, w1) ->
        auth_request_as_hmac cfg relative_url2 None None body2 w1
        = (Ok r2, w2) ->
        snd r2 = snd r1
        /\ is_Some (dict_get hmac_header (deref (heap w1) (snd r2)))
        /\ forall k v,
             k <> client_header -> k <> timestamp_header ->
             k <> hmac_header ->
             dict_get k (deref (heap w1) (snd r1)) = Some v ->
             dict_get k (deref (heap w2) (snd r2)) = Some v).
Proof.
  destruct header_names_distinct as (Hct & Hch & Hth).
  split; [|split; [|split]]; cycle 3.
  { intros relative_url2 body2 r1 w1 r2 w2 Hrun1 Hrun2.
    destruct (auth_request_as_hmac_Ok _ _ _ _ _ _ _ _ Hrun1)
      as (sig1 & Hr1 & Hheap1 & _ & _).
    destruct (auth_request_as_hmac_Ok _ _ _ _ _ _ _ _ Hrun2)
      as (sig2 & Hr2 & Hheap2 & _ & _).
    cbn [default] in Hr1, Hr2, Hheap1, Hheap2.
    rewrite Hr1, Hr2. split; [reflexivity|].
    rewrite Hheap2, deref_insert_eq, Hheap1, deref_insert_eq.
    split.
    - eexists. unfold signed_headers. apply dict_get_set_eq.
    - intros k v H1 H2 H3 Hv. unfold signed_headers, stamped.
      unfold signed_headers, stamped in Hv.
      rewrite !dict_get_set_ne in Hv by congruence.
      rewrite !dict_get_set_ne by congruence. exact Hv. }
  - intros p w'. subst w'. rewrite auth_request_as_url_run.
    fold p. unfold set_heap. cbn [snd heap]. rewrite deref_insert_eq.
    split; [reflexivity|]. split; [apply dict_get_set_eq|].
    intros k v Hk Hv. rewrite dict_get_set_ne by congruence. exact Hv.
  - intros p w'. subst w'. rewrite do_get_heap. fold p.
    rewrite deref_insert_eq.
    split; [reflexivity|]. split; [apply dict_get_set_eq|].
    intros k v Hk Hv. rewrite dict_get_set_ne by congruence. exact Hv.
  - intros h r w' Hrun.
    destruct (auth_request_as_hmac_Ok _ _ _ _ _ _ _ _ Hrun)
      as (signature & Hr & Hheap & _ & _).
    fold h in Hr, Hheap. rewrite Hheap, deref_insert_eq.
    split; [exact Hr|]. split.
    { exists signature. split; [reflexivity|].
      unfold signed_headers. apply dict_get_set_eq. }
    unfold signed_headers, stamped. split; [|split].
    + rewrite !dict_get_set_ne by congruence. apply dict_get_set_eq.
    + rewrite dict_get_set_ne by congruence. apply dict_get_set_eq.
    + intros k v H1 H2 H3 Hv.
      rewrite !dict_get_set_ne by congruence. exact Hv.
Qed.

Lemma authenticators_mutate_in_place_witness :
  exists r w',
    auth_request_as_hmac auth_shipped (u "/lasereggs/abc") None None [] quiet
    = (Ok r, w')
    /\ snd r = auth_request_as_hmac_headers
    /\ dict_get client_header (deref (heap w') auth_request_as_hmac_headers)
       = Some (VStr (u "2c13f157da77")).
Proof.
  pose proof (auth_request_as_hmac_run auth_shipped (u "/lasereggs/abc")
                None None [] quiet auth_shipped_key []
                shipped_auth_key_decodes eq_refl eq_refl eq_refl) as Hrun.
  eexists. eexists. split; [exact Hrun|].
  destruct (proj1 (proj2 (proj2 (authenticators_mutate_in_place auth_shipped
                                   loads_null (u "/lasereggs/abc") None None
                                   [] quiet))) _ _ Hrun) as (Hr & _ & Hc & _).
  split; [exact Hr|exact Hc].
Defined.

(** The leak, on one run of [restv1-hmac.py]'s [do_req]: a POST with a
    body puts [Content-Type] into the default [headers] object of
    [auth_request_as_hmac]; the GET that follows, which has no body,
    is sent with that header. *)
Example content_type_leaks_into_next_request :
  let server := always {| status_code := 200; content := [] |} in
  let w1 := snd (Hmac.do_req hmac_edited loads_null
                   (u "post") (u "/lasereggs/abc") (b_lit "{}") None None
                   (fresh 0 server)) in
  let w2 := snd (Hmac.do_req hmac_edited loads_null
                   (u "get") (u "/lasereggs/abc") [] None None w1) in
  match sent w2 with
  | second :: _ =>
      rq_verb second = u "get"
      /\ dict_get (u "Content-Type") (rq_headers second)
         = Some (VStr (u "application/json"))
  | [] => False
  end.
Proof. vm_compute. split; reflexivity. Qed.

(* ===================================================================== *)
(** ** Dispatch on the verb *)
(* ===================================================================== *)








(* ===================================================================== *)
(** ** Response handling *)
(* ===================================================================== *)











(** In [restv1-hmac.py] and [restv1-apikey.py], which only call
    [raise_for_status], the same response is not an error at all. *)
Example status_304_is_returned :
  fst (Hmac.do_req hmac_edited loads_null (u "get") (u "/lasereggs/abc") []
         None None (fresh 0 (always not_modified)))
  = Raise JSONDecodeError
  /\ fst (Hmac.do_req hmac_edited loads_null (u "get") (u "/lasereggs/abc") []
            None None
            (fresh 0 (always {| status_code := 304; content := [] |})))
     = Ok JNull
  /\ fst (ApiKey.do_get apikey_shipped loads_null (u "/lasereggs/abc")
            None None
            (fresh 0 (always {| status_code := 304; content := [] |})))
     = Ok JNull.
Proof. vm_compute. repeat split. Qed.



(* ===================================================================== *)
(** ** The summaries *)
(* ===================================================================== *)

Lemma bind_assoc {A B C} (m : M A) (f : A -> M B) (g : B -> M C) (w : World) :
  bind (bind m f) g w = bind m (fun a => bind (f a) g) w.
Proof. unfold bind. destruct (m w) as [[a|e] w1]; reflexivity. Qed.






(** The reading that is shown: any other number. *)
Example nonzero_reading_is_shown :
  console (snd (summarize_laser_egg epoch_parser
                  (fetch_doc (egg_doc [(u "pm25", JInt 12)])) (u "egg") quiet))
  = [ (""%string, []);
      ("  PM2.5:   {} µg/m³"%string, [PJson (JInt 12)]);
      ("  Updated: {} seconds ago"%string, [PInt 0]);
      ("Laser Egg data returned:"%string, []) ].
Proof. vm_compute. reflexivity. Qed.

(* ===================================================================== *)
(** ** Fixtures *)
(* ===================================================================== *)

(** The end-to-end scenario of the specification: client id
    [2c13f157da77], a secret of 64 zero bytes, path [/lasereggs/abc],
    no parameters, no body, time stamp [5f3759df]. *)
Example zero_key_scenario_signature :
  dict_get hmac_header
    (deref (heap (snd (auth_request_as_hmac zero_key_scenario
                         (u "/lasereggs/abc") None None []
                         (fresh 1597463007000000
                            (always {| status_code := 200;
                                       content := [] |})))))
           auth_request_as_hmac_headers)
  = Some (VBytes (b_lit "DLDXpyXShGOcDaGDm+Xliywoyz2vFvMlGB0CM+1rD7I=")).
Proof. vm_compute. reflexivity. Qed.

(** Unlike [hmac], the signing operation depends on the clock: the same
    request signed one second later carries another signature. *)
Example signature_depends_on_the_clock :
  dict_get hmac_header
    (deref (heap (snd (auth_request_as_hmac auth_shipped (u "/lasereggs/abc")
                         None None []
                         (fresh 1597463008000000
                            (always {| status_code := 200;
                                       content := [] |})))))
           auth_request_as_hmac_headers)
  = Some (VBytes (b_lit "tEWMdJjXTSfwzNcDRuIWjS5SSZ7COMVZrXMZbjKyup4=")).
Proof. vm_compute. reflexivity. Qed.

(* ===================================================================== *)
(** ** Further properties: keys and their printed form *)
(* ===================================================================== *)

Lemma spec_hmac_same_key (key key' message : bytes) :
  spec_step2 (spec_step1 key) = spec_step2 (spec_step1 key') ->
  hmac key message = hmac key' message.
Proof.
  intros H. rewrite !hmac_refines_spec. unfold spec_hmac. rewrite H.
  reflexivity.
Qed.

(** X1.  Zero bytes at the end of a key of at most 64 bytes do not count:
    the key and the key followed by zero bytes, up to 64 bytes in all,
    give the same signature on every message. *)
Theorem hmac_ignores_trailing_zeros (key message : bytes) (n : nat) :
  (length key + n <= 64)%nat ->
  hmac (key ++ repeat x00 n) message = hmac key message.
Proof.
  intros Hlen. apply spec_hmac_same_key.
  unfold spec_step1, spec_step2. rewrite length_app, repeat_length.
  assert (H1 : (64 <? length key + n)%nat = false) by (apply Nat.ltb_ge; lia).
  assert (H2 : (64 <? length key)%nat = false) by (apply Nat.ltb_ge; lia).
  rewrite H1, H2, length_app, repeat_length.
  destruct (Nat.ltb_spec (length key + n) 64) as [H3|H3],
    (Nat.ltb_spec (length key) 64) as [H4|H4].
  - rewrite <- app_assoc, <- repeat_app. f_equal. f_equal. lia.
  - exfalso. lia.
  - f_equal. f_equal. lia.
  - replace n with 0%nat by lia. apply app_nil_r.
Qed.

Lemma hmac_ignores_trailing_zeros_witness :
  hmac (b_lit "key" ++ repeat x00 5) (b_lit "message")
  = hmac (b_lit "key") (b_lit "message").
Proof.
  apply (hmac_ignores_trailing_zeros (b_lit "key") (b_lit "message") 5).
  cbn [length b_lit map list_ascii_of_string]. lia.
Defined.

(** X2.  A key longer than 64 bytes and its SHA-256 digest are
    interchangeable: they give the same signature on every message. *)
Theorem hmac_long_key_is_its_digest (key message : bytes) :
  (64 < length key)%nat ->
  hmac key message = hmac (SHA256.digest key) message.
Proof.
  intros Hlen. apply spec_hmac_same_key.
  unfold spec_step1.
  apply Nat.ltb_lt in Hlen. rewrite Hlen, sha256_digest_length.
  reflexivity.
Qed.

Lemma hmac_long_key_is_its_digest_witness :
  hmac (repeat xaa 65) (b_lit "message")
  = hmac (SHA256.digest (repeat xaa 65)) (b_lit "message").
Proof.
  apply (hmac_long_key_is_its_digest (repeat xaa 65) (b_lit "message")).
  rewrite repeat_length. lia.
Defined.

Lemma hex2_reads_back (b : byte) (rest : str) :
  fromhex (hex2 (bv b) ++ rest)
  = rbind (fromhex rest) (fun bs => Ok (b :: bs)).
Proof. destruct b; reflexivity. Qed.

Lemma hex2_alone (b : byte) : fromhex (hex2 (bv b)) = Ok [b].
Proof. destruct b; reflexivity. Qed.

Lemma hex2_ascii (b : byte) : is_ascii (hex2 (bv b)) = true.
Proof. destruct b; reflexivity. Qed.

(** X3.  [bytes2hex] and [fromhex] are inverse on byte strings: the text
    printed for the secret key is ASCII, has two digits per byte and one
    space between bytes, and reads back as the key. *)
Theorem bytes2hex_reads_back (bb : bytes) :
  fromhex (bytes2hex bb) = Ok bb
  /\ is_ascii (bytes2hex bb) = true
  /\ length (bytes2hex bb) = (3 * length bb - 1)%nat.
Proof.
  unfold bytes2hex.
  induction bb as [|b bb IH]; [repeat split|].
  destruct IH as (IHr & IHa & IHl).
  cbn [map join].
  destruct bb as [|b' bb].
  - repeat split.
    + apply hex2_alone.
    + apply hex2_ascii.
  - set (tail := join (u " ") (map (fun x => hex2 (bv x)) (b' :: bb))) in *.
    cbn [map]. fold tail.
    change (match map (fun x => hex2 (bv x)) bb with
            | [] => hex2 (bv b')
            | _ :: _ => hex2 (bv b') ++ u " " ++ join (u " ") (map (fun x => hex2 (bv x)) bb)
            end) with tail in *.
    repeat split.
    + rewrite hex2_reads_back.
      change (fromhex (u " " ++ tail)) with (fromhex tail).
      rewrite IHr. reflexivity.
    + rewrite !is_ascii_app, hex2_ascii, IHa. reflexivity.
    + rewrite !length_app, IHl. cbn [length hex2 u map list_ascii_of_string].
      lia.
Qed.

(* ===================================================================== *)
(** ** Further properties: what signing touches *)
(* ===================================================================== *)

(** X4.  A call of [auth_request_as_hmac] that fails on a relative URL
    with a non-ASCII character has already updated the headers object:
    it holds the client id and the new time stamp, while the
    [X-Kaiterra-HMAC] entry is the one it had before the call, if any;
    the clock has been read. *)
Theorem failed_signing_leaves_headers_stamped (cfg : Config)
    (relative_url : str) (params headers : option loc) (body : bytes)
    (w : World) (q : str) :
  let p := default auth_request_as_hmac_params params in
  let h := default auth_request_as_hmac_headers headers in
  let d := deref (heap w) h in
  hex_text (hmac_secret_key cfg) ->
  is_ascii (client_id cfg) = true ->
  urlencode (deref (<[h := stamped cfg (next_time w) d]> (heap w)) p) = Ok q ->
  is_ascii relative_url = false ->
  exists w',
    auth_request_as_hmac cfg relative_url params headers body w
    = (Raise (UnicodeEncodeError "ascii"), w')
    /\ dict_get client_header (deref (heap w') h) = Some (VStr (client_id cfg))
    /\ dict_get timestamp_header (deref (heap w') h)
       = Some (VStr (format_x (next_time w)))
    /\ dict_get hmac_header (deref (heap w') h) = dict_get hmac_header d
    /\ clock_reads w' = S (clock_reads w).
Proof.
  intros p h d Hhex Hcid Hq Hurl.
  destruct header_names_distinct as (Hct & Hch & Hth).
  destruct (fromhex_accepts _ Hhex) as [key Hkey].
  eexists. split.
  { apply (auth_request_as_hmac_prefix cfg relative_url params headers body w
             key q Hkey Hcid Hq Hurl). }
  cbn [heap clock_reads]. fold h. rewrite deref_insert_eq. unfold stamped.
  repeat split.
  - rewrite dict_get_set_ne by congruence. apply dict_get_set_eq.
  - apply dict_get_set_eq.
  - rewrite !dict_get_set_ne by congruence. reflexivity.
Qed.

Lemma failed_signing_leaves_headers_stamped_witness :
  exists w',
    auth_request_as_hmac auth_shipped [47%N; 233%N] None None [] quiet
    = (Raise (UnicodeEncodeError "ascii"), w')
    /\ dict_get client_header (deref (heap w') auth_request_as_hmac_headers)
       = Some (VStr (u "2c13f157da77"))
    /\ dict_get hmac_header (deref (heap w') auth_request_as_hmac_headers)
       = None.
Proof.
  destruct (failed_signing_leaves_headers_stamped auth_shipped [47%N; 233%N]
              None None [] quiet [])
    as (w' & Hrun & Hc & _ & Hh & _).
  - apply fromhex_ok_iff. exists auth_shipped_key.
    exact shipped_auth_key_decodes.
  - reflexivity.
  - reflexivity.
  - reflexivity.
  - exists w'. split; [exact Hrun|]. split; [exact Hc|exact Hh].
Defined.

(** Dictionaries other than the one a script stores into. *)
Lemma keeps_other_dict_store (l h : loc) (k : str) (v : pyval) :
  l <> h -> keeps (fun w => deref (heap w) l) (dict_store h k v).
Proof.
  intros Hne w. unfold dict_store, set_heap. cbn [snd heap].
  apply deref_insert_ne. congruence.
Qed.

Lemma keeps_dict_load {X} (f : World -> X) (l : loc) (k : str) :
  keeps f (dict_load l k).
Proof.
  intros w. unfold dict_load.
  destruct (dict_get k (deref (heap w) l)); reflexivity.
Qed.

(** X5.  Whatever its outcome, [auth_request_as_hmac] changes no
    dictionary but its headers object, sends nothing and leaves the
    transport alone; in particular a [params] object that is not the
    headers object is only read. *)
Theorem signing_touches_only_headers (cfg : Config) (relative_url : str)
    (params headers : option loc) (body : bytes) (w : World) :
  let h := default auth_request_as_hmac_headers headers in
  let w' := snd (auth_request_as_hmac cfg relative_url params headers body w) in
  (forall l, l <> h -> deref (heap w') l = deref (heap w) l)
  /\ sent w' = sent w.
Proof.
  intros h w'. subst w'. split.
  - intros l Hl.
    assert (Hk : keeps (fun w0 => deref (heap w0) l)
                   (auth_request_as_hmac cfg relative_url params headers body)).
    { unfold auth_request_as_hmac, int_time_time. cbv zeta. fold h.
      repeat first
        [ apply keeps_bind; [|intros ?]
        | apply keeps_ret | apply keeps_lift | apply keeps_dict_items
        | apply keeps_dict_load
        | apply keeps_other_dict_store; exact Hl
        | (intros ?; reflexivity)
        | match goal with
          | |- keeps _ (match ?x with _ => _ end) => destruct x
          end ]. }
    apply (Hk w).
  - assert (Hk : keeps sent
                   (auth_request_as_hmac cfg relative_url params headers body)).
    { unfold auth_request_as_hmac, int_time_time. cbv zeta.
      repeat first
        [ apply keeps_bind; [|intros ?]
        | apply keeps_ret | apply keeps_lift | apply keeps_dict_items
        | apply keeps_dict_load
        | (intros ?; reflexivity)
        | match goal with
          | |- keeps _ (match ?x with _ => _ end) => destruct x
          end ]. }
    apply (Hk w).
Qed.

(* ===================================================================== *)
(** ** Further properties: what is signed, what is appended *)
(* ===================================================================== *)

(** X6.  The signed bytes have no delimiter between the URL and the body:
    when [params] is an empty dictionary that is not the headers object,
    the key is valid hexadecimal and the client id and the URL are
    ASCII, ASCII text moved from the end of the relative URL to the
    front of the body is signed to the same [X-Kaiterra-HMAC] value (at
    the same clock reading). *)
Theorem signature_blind_to_url_body_boundary (cfg : Config)
    (relative_url moved : str) (params headers : option loc) (body : bytes)
    (w : World) :
  let p := default auth_request_as_hmac_params params in
  let h := default auth_request_as_hmac_headers headers in
  p <> h ->
  deref (heap w) p = [] ->
  hex_text (hmac_secret_key cfg) ->
  is_ascii (client_id cfg) = true ->
  is_ascii relative_url = true ->
  is_ascii moved = true ->
  exists (signature : bytes) (w1 w2 : World),
    auth_request_as_hmac cfg (relative_url ++ moved) params headers body w
    = (Ok (strip 47 (base_url cfg) ++ relative_url ++ moved, h), w1)
    /\ auth_request_as_hmac cfg relative_url params headers
         (ascii_bytes moved ++ body) w
       = (Ok (strip 47 (base_url cfg) ++ relative_url, h), w2)
    /\ dict_get hmac_header (deref (heap w1) h)
       = Some (VBytes (b64encode signature))
    /\ dict_get hmac_header (deref (heap w2) h)
       = Some (VBytes (b64encode signature)).
Proof.
  intros p h Hph Hempty Hhex Hcid Hurl Hmoved.
  destruct (fromhex_accepts _ Hhex) as [key Hkey].
  assert (Hquery : deref (<[h := stamped cfg (next_time w) (deref (heap w) h)]>
                            (heap w)) p = []).
  { rewrite deref_insert_ne by congruence. exact Hempty. }
  assert (Hq : urlencode (deref (<[h := stamped cfg (next_time w)
                                          (deref (heap w) h)]> (heap w)) p)
               = Ok []) by (fold p h; rewrite Hquery; reflexivity).
  assert (Hurl' : is_ascii (relative_url ++ moved) = true)
    by (rewrite is_ascii_app, Hurl, Hmoved; reflexivity).
  pose proof (auth_request_as_hmac_run cfg (relative_url ++ moved) params
                headers body w key [] Hkey Hcid Hurl' Hq) as Hrun1.
  pose proof (auth_request_as_hmac_run cfg relative_url params
                headers (ascii_bytes moved ++ body) w key [] Hkey Hcid Hurl Hq)
    as Hrun2.
  cbv zeta in Hrun1, Hrun2. fold p h in Hrun1, Hrun2.
  rewrite Hquery in Hrun1, Hrun2. cbn [query_suffix] in Hrun1, Hrun2.
  rewrite !app_nil_r in Hrun1, Hrun2.
  rewrite !ascii_bytes_app, <- !app_assoc in Hrun1.
  rewrite !ascii_bytes_app in Hrun2. rewrite <- !app_assoc in Hrun2.
  eexists. eexists. eexists.
  split; [exact Hrun1|]. split; [exact Hrun2|].
  cbn [heap]. rewrite !deref_insert_eq. unfold signed_headers.
  split; apply dict_get_set_eq.
Qed.

Lemma signature_blind_to_url_body_boundary_witness :
  exists (signature : bytes) (w1 w2 : World),
    auth_request_as_hmac auth_shipped (u "/lasereggs/abc") None None [] quiet
    = (Ok (u "https://api.origins-china.cn/v1/lasereggs/abc",
           auth_request_as_hmac_headers), w1)
    /\ auth_request_as_hmac auth_shipped (u "/lasereggs/") None None
         (b_lit "abc") quiet
       = (Ok (u "https://api.origins-china.cn/v1/lasereggs/",
              auth_request_as_hmac_headers), w2)
    /\ dict_get hmac_header (deref (heap w1) auth_request_as_hmac_headers)
       = Some (VBytes (b64encode signature))
    /\ dict_get hmac_header (deref (heap w2) auth_request_as_hmac_headers)
       = Some (VBytes (b64encode signature)).
Proof.
  apply (signature_blind_to_url_body_boundary auth_shipped (u "/lasereggs/")
           (u "abc") None None [] quiet).
  - discriminate.
  - reflexivity.
  - apply fromhex_ok_iff. exists auth_shipped_key.
    exact shipped_auth_key_decodes.
  - reflexivity.
  - reflexivity.
  - reflexivity.
Defined.

(* ===================================================================== *)
(** ** Further properties: the key in the query string *)
(* ===================================================================== *)

Lemma dict_set_absent (k : str) (v : pyval) (d : dict) :
  dict_get k d = None -> dict_set k v d = d ++ [(k, v)].
Proof.
  induction d as [|[k' v'] d IH]; cbn [dict_get dict_set app]; [reflexivity|].
  destruct (decide (k' = k)); [discriminate|].
  intros H. rewrite (IH H). reflexivity.
Qed.

Lemma urlencode_items_app (d d' : dict) :
  urlencode_items (d ++ d')
  = rbind (urlencode_items d)
      (fun l => rbind (urlencode_items d') (fun l' => Ok (l ++ l'))).
Proof.
  induction d as [|[k v] d IH]; cbn [app urlencode_items rbind].
  - destruct (urlencode_items d'); reflexivity.
  - destruct (quote_plus (VStr k)); cbn [rbind]; [|reflexivity].
    destruct (quote_plus v); cbn [rbind]; [|reflexivity].
    rewrite IH.
    destruct (urlencode_items d); cbn [rbind]; [|reflexivity].
    destruct (urlencode_items d'); reflexivity.
Qed.

Lemma join_snoc (sep x : str) (l : list str) :
  l <> [] -> join sep (l ++ [x]) = join sep l ++ sep ++ x.
Proof.
  induction l as [|y l IH]; [contradiction|]. intros _.
  destruct l as [|z l]; [reflexivity|].
  change (join sep ((y :: z :: l) ++ [x]))
    with (y ++ sep ++ join sep ((z :: l) ++ [x])).
  rewrite IH by discriminate.
  change (join sep (y :: z :: l)) with (y ++ sep ++ join sep (z :: l)).
  rewrite <- !app_assoc. reflexivity.
Qed.

(** X7.  When [params] has no entry named [key], [auth_request_as_url]
    puts the key after the parameters already there, which keep their
    order: the query string is the encoding of the original parameters
    followed by [&key=<encoded key>]. *)
Theorem auth_request_as_url_appends_key_last (cfg : Config)
    (relative_url : str) (params headers : option loc) (body : bytes)
    (w : World) (q0 key_value : str) :
  let p := default auth_request_as_url_params params in
  let h := default auth_request_as_url_headers headers in
  let original := deref (heap w) p in
  original <> [] ->
  dict_get (u "key") original = None ->
  urlencode original = Ok q0 ->
  quote_plus (VStr (dev_demo_key cfg)) = Ok key_value ->
  fst (auth_request_as_url cfg relative_url params headers body w)
  = Ok (strip 47 (base_url cfg) ++ relative_url ++ u "?"
        ++ q0 ++ u "&key=" ++ key_value, h).
Proof.
  intros p h original Hne Habsent Hq0 Hkv.
  rewrite auth_request_as_url_run. cbn [fst]. fold p h original.
  rewrite (dict_set_absent _ _ _ Habsent).
  unfold urlencode in *. rewrite urlencode_items_app.
  destruct (urlencode_items original) as [l|] eqn:Hl; cbn [rbind] in *;
    [|discriminate].
  apply Ok_inj in Hq0. subst q0.
  cbn [urlencode_items].
  change (quote_plus (VStr (u "key"))) with (Ok (A := str) (u "key")).
  rewrite Hkv. cbn [rbind result_map].
  assert (Hlne : l <> []).
  { destruct original as [|[k v] rest]; [contradiction|].
    cbn [urlencode_items] in Hl.
    destruct (quote_plus (VStr k)); cbn [rbind] in Hl; [|discriminate].
    destruct (quote_plus v); cbn [rbind] in Hl; [|discriminate].
    destruct (urlencode_items rest); cbn [rbind] in Hl; [|discriminate].
    apply Ok_inj in Hl. subst l. discriminate. }
  rewrite (join_snoc _ _ _ Hlne). reflexivity.
Qed.

Lemma auth_request_as_url_appends_key_last_witness :
  fst (auth_request_as_url auth_shipped (u "/lasereggs/abc")
         (Some 9%positive) None []
         (set_heap (<[9%positive := [(u "series", VStr (u "raw data"))]]>
                      (heap quiet)) quiet))
  = Ok (u "https://api.origins-china.cn/v1/lasereggs/abc?series=raw+data&key=kOpAgVMnz2zM5l6XKQwv4JmUEvopnmUewFKXQ0Wvf9Su72a9",
        auth_request_as_url_headers).
Proof.
  apply (auth_request_as_url_appends_key_last auth_shipped (u "/lasereggs/abc")
           (Some 9%positive) None []
           (set_heap (<[9%positive := [(u "series", VStr (u "raw data"))]]>
                        (heap quiet)) quiet)
           (u "series=raw+data")
           (u "kOpAgVMnz2zM5l6XKQwv4JmUEvopnmUewFKXQ0Wvf9Su72a9")).
  - vm_compute. discriminate.
  - vm_compute. reflexivity.
  - vm_compute. reflexivity.
  - vm_compute. reflexivity.
Defined.

(* ===================================================================== *)
(** ** Further properties: the request that is dispatched *)
(* ===================================================================== *)

Lemma keeps_sent_print (t : string) (args : list parg) : keeps sent (print t args).
Proof. intros w. reflexivity. Qed.

(** Proves [keeps sent m] for a script [m] that sends nothing. *)
Ltac keeps_sent :=
  repeat first
    [ apply keeps_bind; [|intros ?]
    | apply keeps_ret | apply keeps_raise | apply keeps_lift
    | apply keeps_dict_items | apply keeps_read_local
    | apply keeps_raise_for_status | apply keeps_sent_print
    | match goal with
      | |- keeps _ (if ?c then _ else _) => destruct c
      end ].

(** From the point where [do_req] calls [requests]: one request goes
    out, whatever comes back. *)
Ltac run_send :=
  rewrite bind_assoc; unfold bind at 1; unfold send at 1;
  cbn [heap clock clock_reads transport sent console];
  match goal with
  | |- context [transport ?w ?rq] => destruct (transport w rq)
  end;
  [ erewrite bind_Ok by reflexivity;
    match goal with
    | |- sent (snd (?m ?w1)) = _ =>
        let Hk := fresh "Hk" in
        assert (Hk : keeps sent m) by keeps_sent; rewrite (Hk w1)
    end
  | ];
  cbn [snd sent].

(** X8.  For a verb it knows and a request the authenticator accepted,
    [do_req] of [restv1-hmac.py] hands exactly one request to the
    transport, whatever the response: with the verb, the URL and the
    headers object the authenticator returned, a [Content-Type] header
    added if and only if the body is not empty, and the body as data
    except for ['get'], where no data is sent although the body was
    signed.  The [headers] argument of [do_req] plays no part. *)
Theorem hmac_do_req_sends_one_request (cfg : Config)
    (json_loads : str -> result json) (verb url : str) (body : bytes)
    (params headers : option loc) (w w1 : World) (r : str * loc) :
  known_verb verb = true ->
  auth_request_as_hmac cfg url (Some (default do_req_params params)) None body w
  = (Ok r, w1) ->
  let signed := deref (heap w1) (snd r) in
  sent (snd (Hmac.do_req cfg json_loads verb url body params headers w))
  = {| rq_verb := verb;
       rq_url := fst r;
       rq_params := [];
       rq_headers :=
         if 0 <? Z.of_nat (length body)
         then dict_update signed
                [(u "Content-Type", VStr (u "application/json"))]
         else signed;
       rq_data := if str_eqb verb (u "get") then [] else body;
       rq_allow_redirects := true |} :: sent w.
Proof.
  intros Hverb Hauth signed.
  destruct (auth_request_as_hmac_Ok _ _ _ _ _ _ _ _ Hauth)
    as (_ & _ & _ & _ & Hsent).
  unfold Hmac.do_req. cbv zeta.
  erewrite bind_Ok by exact Hauth. cbn [fst snd].
  unfold known_verb in Hverb.
  destruct (0 <? Z.of_nat (length body));
    do 5 step; rewrite ?deref_insert_eq; fold signed;
    (destruct (str_eqb verb (u "get")) eqn:Hget;
     [|destruct (str_eqb verb (u "post")) eqn:Hpost;
       [|destruct (str_eqb verb (u "put")) eqn:Hput; [|discriminate Hverb]]]);
    try apply bool_decide_eq_true in Hget;
    try apply bool_decide_eq_true in Hpost;
    try apply bool_decide_eq_true in Hput;
    run_send; rewrite Hsent; subst; reflexivity.
Qed.

Lemma hmac_do_req_sends_one_request_witness :
  exists rq,
    sent (snd (Hmac.do_req hmac_edited loads_null (u "get")
                 (u "/lasereggs/abc") (b_lit "{}") None None
                 (fresh 0 (always not_found))))
    = [rq]
    /\ rq_data rq = []
    /\ dict_get (u "Content-Type") (rq_headers rq)
       = Some (VStr (u "application/json")).
Proof.
  pose proof (auth_request_as_hmac_run hmac_edited (u "/lasereggs/abc")
                (Some do_req_params) None (b_lit "{}")
                (fresh 0 (always not_found)) auth_shipped_key []
                shipped_auth_key_decodes eq_refl eq_refl eq_refl) as Hrun.
  eexists. split.
  - exact (hmac_do_req_sends_one_request hmac_edited loads_null (u "get")
             (u "/lasereggs/abc") (b_lit "{}") None None _ _ _ eq_refl Hrun).
  - split; reflexivity.
Defined.


(* ===================================================================== *)
(** ** Further properties: errors on the way back *)
(* ===================================================================== *)





(* ===================================================================== *)
(** ** Further properties: the other branches of the summaries *)
(* ===================================================================== *)

(** X11.  A document whose [info.aqi] member (for a Sensedge, [latest])
    is missing, [null] or otherwise false is not an error: the summary
    prints that the device has not uploaded data yet, then an empty
    line, and does not read the clock. *)
Theorem summary_without_readings (strptime : str -> result Z)
    (fetch : str -> M json) (id : str) (w w1 : World) (data : json) :
  fetch id w = (Ok data, w1) ->
  (forall latest,
     json_get data (u "info.aqi") = Ok latest ->
     truthy latest = false ->
     summarize_laser_egg strptime fetch id w
     = (Ok tt,
        {| heap := heap w1; clock := clock w1; clock_reads := clock_reads w1;
           transport := transport w1; sent := sent w1;
           console :=
             (""%string, [])
             :: ("Laser Egg hasn't uploaded any data yet"%string, [])
             :: console w1 |}))
  /\ (forall latest,
        json_get data (u "latest") = Ok latest ->
        truthy latest = false ->
        summarize_sensedge strptime fetch id w
        = (Ok tt,
           {| heap := heap w1; clock := clock w1;
              clock_reads := clock_reads w1;
              transport := transport w1; sent := sent w1;
              console :=
                (""%string, [])
                :: ("Sensedge hasn't uploaded any data yet"%string, [])
                :: console w1 |})).
Proof.
  intros Hfetch. split; intros latest Hlatest Hfalsy.
  - unfold summarize_laser_egg.
    erewrite bind_Ok by exact Hfetch.
    step_lift Hlatest. rewrite Hfalsy. step. reflexivity.
  - unfold summarize_sensedge.
    erewrite bind_Ok by exact Hfetch.
    step_lift Hlatest. rewrite Hfalsy. step. reflexivity.
Qed.

Lemma summary_without_readings_witness :
  console (snd (summarize_laser_egg epoch_parser (fetch_doc (JDict []))
                  (u "egg") quiet))
  = [ (""%string, []);
      ("Laser Egg hasn't uploaded any data yet"%string, []) ].
Proof.
  rewrite (proj1 (summary_without_readings epoch_parser (fetch_doc (JDict []))
                    (u "egg") quiet quiet (JDict []) eq_refl)
             JNull eq_refl eq_refl).
  reflexivity.
Defined.

(** X12.  A document that has readings but no [ts] member makes
    [summarize_laser_egg] raise [KeyError] after the heading is printed
    and before the clock is read; one with [ts] but no [data] member
    raises [KeyError] after the age line is printed, with [int] of the
    float number of seconds between the clock and the time stamp. *)
Theorem summary_missing_member (strptime : str -> result Z)
    (fetch : str -> M json) (id : str) (w w1 : World) (data : json)
    (members : list (str * json)) :
  fetch id w = (Ok data, w1) ->
  json_get data (u "info.aqi") = Ok (JDict members) ->
  members <> [] ->
  (members_get (u "ts") members = None ->
   summarize_laser_egg strptime fetch id w
   = (Raise (KeyError (u "ts")),
      {| heap := heap w1; clock := clock w1; clock_reads := clock_reads w1;
         transport := transport w1; sent := sent w1;
         console := ("Laser Egg data returned:"%string, []) :: console w1 |}))
  /\ (forall ts_text ts,
        members_get (u "ts") members = Some (JStr ts_text) ->
        strptime ts_text = Ok ts ->
        members_get (u "data") members = None ->
        summarize_laser_egg strptime fetch id w
        = (Raise (KeyError (u "data")),
           after_summary
             [ ("  Updated: {} seconds ago"%string,
                [PInt (int_total_seconds (clock w1 (clock_reads w1) - ts))]);
               ("Laser Egg data returned:"%string, []) ] w1)).
Proof.
  intros Hfetch Hlatest Hne.
  assert (Htruthy : truthy (JDict members) = true)
    by (destruct members; [contradiction|reflexivity]).
  split.
  - intros Hts. unfold summarize_laser_egg.
    erewrite bind_Ok by exact Hfetch.
    step_lift Hlatest. rewrite Htruthy.
    rewrite bind_assoc. step.
    erewrite bind_Raise; [reflexivity|].
    erewrite bind_Raise; [reflexivity|].
    rewrite lift_run. cbn [json_subscript]. rewrite Hts. reflexivity.
  - intros ts_text ts Hts Hparse Hdata. unfold summarize_laser_egg.
    erewrite bind_Ok by exact Hfetch.
    step_lift Hlatest. rewrite Htruthy.
    rewrite bind_assoc. step.
    rewrite bind_assoc. cbn [json_subscript]. rewrite Hts, Hdata. step.
    rewrite bind_assoc. unfold parse_rfc3339_utc. step_lift Hparse.
    rewrite bind_assoc. unfold seconds_since. step.
    rewrite bind_assoc. step.
    erewrite bind_Raise; [reflexivity|].
    erewrite bind_Raise; reflexivity.
Qed.

Lemma summary_missing_member_witness :
  fst (summarize_laser_egg epoch_parser
         (fetch_doc (JDict [(u "info.aqi", JDict [(u "data", JDict [])])]))
         (u "egg") quiet)
  = Raise (KeyError (u "ts")).
Proof.
  rewrite (proj1 (summary_missing_member epoch_parser
                    (fetch_doc (JDict [(u "info.aqi",
                                        JDict [(u "data", JDict [])])]))
                    (u "egg") quiet quiet _ [(u "data", JDict [])]
                    eq_refl eq_refl ltac:(discriminate)) eq_refl).
  reflexivity.
Defined.




(* ===================================================================== *)
(** ** Further properties: the time stamp *)
(* ===================================================================== *)

Lemma hex_char_value (d : Z) :
  0 <= d < 16 -> hex_value (hex_char d) = Some (Z.to_N d).
Proof.
  intros Hd.
  assert (H : d = 0 \/ d = 1 \/ d = 2 \/ d = 3 \/ d = 4 \/ d = 5 \/ d = 6
              \/ d = 7 \/ d = 8 \/ d = 9 \/ d = 10 \/ d = 11 \/ d = 12
              \/ d = 13 \/ d = 14 \/ d = 15) by lia.
  repeat (destruct H as [->|H]; [reflexivity|]). subst d. reflexivity.
Qed.

Lemma hex_digits_number (fuel : nat) (n : Z) (acc : str) :
  0 <= n < 16 ^ Z.of_nat fuel ->
  hex_number 0 (hex_digits fuel n acc) = hex_number n acc.
Proof.
  revert n acc. induction fuel as [|fuel IH]; intros n acc Hn.
  - cbn [hex_digits]. change (16 ^ Z.of_nat 0) with 1 in Hn.
    replace n with 0 by lia. reflexivity.
  - cbn [hex_digits]. destruct (Z.ltb_spec n 16) as [Hlt|Hge].
    + cbn [hex_number]. rewrite hex_char_value by lia.
      f_equal. lia.
    + rewrite IH.
      * cbn [hex_number].
        rewrite hex_char_value by (apply Z.mod_pos_bound; lia).
        f_equal. rewrite Z2N.id by (apply Z.mod_pos_bound; lia).
        pose proof (Z.div_mod n 16). lia.
      * rewrite Nat2Z.inj_succ, Z.pow_succ_r in Hn by lia.
        split; [apply Z.div_pos; lia|].
        apply Z.div_lt_upper_bound; lia.
Qed.

Lemma hex_digits_not_nil (fuel : nat) (n : Z) (acc : str) :
  hex_digits (S fuel) n acc <> [].
Proof.
  revert n acc. induction fuel as [|fuel IH]; intros n acc.
  - cbn [hex_digits]. destruct (n <? 16); discriminate.
  - change (hex_digits (S (S fuel)) n acc)
      with (if n <? 16 then hex_char n :: acc
            else hex_digits (S fuel) (n / 16) (hex_char (n mod 16) :: acc)).
    destruct (n <? 16); [discriminate|apply IH].
Qed.

Lemma format_x_reads_back (n : Z) : 0 <= n -> int16 (format_x n) = Some n.
Proof.
  intros Hn. unfold format_x.
  destruct (Z.ltb_spec n 0) as [Hneg|_]; [lia|].
  set (fuel := S (Z.to_nat (Z.log2 n))).
  assert (Hfuel : 0 <= n < 16 ^ Z.of_nat fuel).
  { split; [exact Hn|]. unfold fuel.
    rewrite Nat2Z.inj_succ, Z2Nat.id by apply Z.log2_nonneg.
    destruct (Z.eq_dec n 0) as [->|Hpos]; [reflexivity|].
    pose proof (Z.log2_spec n ltac:(lia)) as [_ Hup].
    eapply Z.lt_le_trans; [exact Hup|].
    apply Z.pow_le_mono_l. lia. }
  pose proof (hex_digits_number fuel n [] Hfuel) as Hnum.
  cbn [hex_number] in Hnum.
  unfold int16.
  destruct (hex_digits fuel n []) eqn:Hd.
  - exfalso. exact (hex_digits_not_nil _ _ _ Hd).
  - exact Hnum.
Qed.

(** X14.  After a successful [auth_request_as_hmac], at a time that is
    not before the epoch, the [X-Kaiterra-Time] header is ASCII text of
    hexadecimal digits that reads back, in base 16, as the very number
    of seconds the clock showed. *)
Theorem time_stamp_reads_back (cfg : Config) (relative_url : str)
    (params headers : option loc) (body : bytes) (w w' : World)
    (r : str * loc) :
  0 <= next_time w ->
  auth_request_as_hmac cfg relative_url params headers body w = (Ok r, w') ->
  exists text,
    dict_get timestamp_header (deref (heap w') (snd r)) = Some (VStr text)
    /\ is_ascii text = true
    /\ int16 text = Some (next_time w).
Proof.
  intros Hnow Hrun.
  destruct header_names_distinct as (Hct & Hch & Hth).
  destruct (auth_request_as_hmac_Ok _ _ _ _ _ _ _ _ Hrun)
    as (signature & Hr & Hheap & _ & _).
  exists (format_x (next_time w)).
  rewrite Hr, Hheap, deref_insert_eq. unfold signed_headers, stamped.
  split; [|split].
  - rewrite dict_get_set_ne by congruence. apply dict_get_set_eq.
  - apply format_x_ascii.
  - apply format_x_reads_back, Hnow.
Qed.

Lemma time_stamp_reads_back_witness :
  exists text,
    dict_get timestamp_header
      (deref (heap (snd (auth_request_as_hmac auth_shipped (u "/lasereggs/abc")
                           None None []
                           (fresh 1597463007000000 (always not_found)))))
             auth_request_as_hmac_headers)
    = Some (VStr text)
    /\ int16 text = Some 1597463007.
Proof.
  pose proof (auth_request_as_hmac_run auth_shipped (u "/lasereggs/abc")
                None None [] (fresh 1597463007000000 (always not_found))
                auth_shipped_key []
                shipped_auth_key_decodes eq_refl eq_refl eq_refl) as Hrun.
  destruct (time_stamp_reads_back auth_shipped (u "/lasereggs/abc") None None
              [] (fresh 1597463007000000 (always not_found)) _ _
              ltac:(vm_compute; discriminate) Hrun)
    as (text & Hget & _ & Hnum).
  exists text. rewrite Hrun. split; [exact Hget|exact Hnum].
Defined.

(* ===================================================================== *)
(** ** Further properties: the device requests of [restv1-hmac.py] *)
(* ===================================================================== *)

(** A GET through [do_req] with the default arguments, the shared
    [params] dictionary still empty. *)
Lemma hmac_get_sent (cfg : Config) (json_loads : str -> result json)
    (path : str) (w : World) (key : bytes) :
  fromhex (hmac_secret_key cfg) = Ok key ->
  is_ascii (client_id cfg) = true ->
  is_ascii path = true ->
  deref (heap w) do_req_params = [] ->
  sent (snd (Hmac.do_req cfg json_loads (u "get") path [] None None w))
  = {| rq_verb := u "get";
       rq_url := strip 47 (base_url cfg) ++ path;
       rq_params := [];
       rq_headers :=
         signed_headers cfg (next_time w)
           (spec_hmac key (ascii_bytes (header_text cfg (next_time w) ++ path)))
           (deref (heap w) auth_request_as_hmac_headers);
       rq_data := [];
       rq_allow_redirects := true |} :: sent w.
Proof.
  intros Hkey Hcid Hpath Hempty.
  assert (Hq : deref (<[auth_request_as_hmac_headers :=
                          stamped cfg (next_time w)
                            (deref (heap w) auth_request_as_hmac_headers)]>
                        (heap w)) do_req_params = []).
  { rewrite deref_insert_ne by discriminate. exact Hempty. }
  pose proof (auth_request_as_hmac_run cfg path (Some do_req_params) None []
                w key []) as Hrun.
  cbv zeta in Hrun. cbn [default] in Hrun. unfold id in Hrun.
  rewrite Hq in Hrun.
  specialize (Hrun Hkey Hcid Hpath eq_refl).
  cbn [query_suffix] in Hrun. rewrite !app_nil_r in Hrun.
  unfold Hmac.do_req. cbv zeta. cbn [default].
  erewrite bind_Ok by exact Hrun. cbn [fst snd length Z.of_nat Z.ltb Z.compare].
  do 5 step. rewrite deref_insert_eq.
  change (str_eqb (u "get") (u "get")) with true. cbv iota.
  run_send; reflexivity.
Qed.

(** X15.  With the default, still empty [params] dictionary, a
    hexadecimal secret key and ASCII client and device ids,
    [get_laser_egg] and [get_sensedge] of [restv1-hmac.py] each send
    exactly one GET without data: to the base URL followed by
    [/lasereggs/] or [/sensedges/] and the id as given, not quoted, with
    the headers signed over the two header entries and that same path. *)
Theorem hmac_device_requests (cfg : Config) (json_loads : str -> result json)
    (id : str) (w : World) (key : bytes) :
  fromhex (hmac_secret_key cfg) = Ok key ->
  is_ascii (client_id cfg) = true ->
  is_ascii id = true ->
  deref (heap w) do_req_params = [] ->
  let request path :=
    {| rq_verb := u "get";
       rq_url := strip 47 (base_url cfg) ++ path ++ id;
       rq_params := [];
       rq_headers :=
         signed_headers cfg (next_time w)
           (spec_hmac key
              (ascii_bytes (header_text cfg (next_time w) ++ path ++ id)))
           (deref (heap w) auth_request_as_hmac_headers);
       rq_data := [];
       rq_allow_redirects := true |} in
  sent (snd (Hmac.get_laser_egg cfg json_loads id w))
  = request (u "/lasereggs/") :: sent w
  /\ sent (snd (Hmac.get_sensedge cfg json_loads id w))
     = request (u "/sensedges/") :: sent w.
Proof.
  intros Hkey Hcid Hid Hempty request. split.
  - unfold Hmac.get_laser_egg.
    apply (hmac_get_sent cfg json_loads (u "/lasereggs/" ++ id) w key);
      try assumption.
  - unfold Hmac.get_sensedge.
    apply (hmac_get_sent cfg json_loads (u "/sensedges/" ++ id) w key);
      try assumption.
Qed.

Lemma hmac_device_requests_witness :
  exists rq,
    sent (snd (Hmac.get_sensedge hmac_edited loads_null (u "a b")
                 (fresh 0 (always not_found))))
    = [rq]
    /\ rq_url rq = u "https://api.kaiterra.cn/v1/sensedges/a b".
Proof.
  eexists. split.
  - exact (proj2 (hmac_device_requests hmac_edited loads_null (u "a b")
                    (fresh 0 (always not_found)) auth_shipped_key
                    shipped_auth_key_decodes eq_refl eq_refl eq_refl)).
  - reflexivity.
Defined.

(* ===================================================================== *)
(** ** Further properties: the base URL *)
(* ===================================================================== *)

Lemma lstrip_repeat (c : N) (n : nat) (s : str) :
  lstrip c (repeat c n ++ s) = lstrip c s.
Proof.
  induction n as [|n IH]; [reflexivity|].
  cbn [repeat app lstrip]. rewrite N.eqb_refl. exact IH.
Qed.

Lemma rev_repeat_same (c : N) (n : nat) : rev (repeat c n) = repeat c n.
Proof.
  induction n as [|n IH]; [reflexivity|].
  cbn [repeat rev]. rewrite IH.
  change [c] with (repeat c 1). rewrite <- repeat_app.
  replace (n + 1)%nat with (S n) by lia. reflexivity.
Qed.

Lemma rstrip_repeat (c : N) (n : nat) (s : str) :
  rstrip c (s ++ repeat c n) = rstrip c s.
Proof.
  unfold rstrip. rewrite rev_app_distr, rev_repeat_same, lstrip_repeat.
  reflexivity.
Qed.

Lemma strip_slashes (c : N) (m n : nat) (s : str) :
  strip c (repeat c m ++ s ++ repeat c n) = strip c s.
Proof.
  unfold strip. rewrite lstrip_repeat.
  induction s as [|x s IH].
  - cbn [app]. rewrite <- (app_nil_r (repeat c n)), lstrip_repeat.
    reflexivity.
  - cbn [app lstrip]. destruct (x =? c)%N; [exact IH|].
    change (x :: s ++ repeat c n) with ((x :: s) ++ repeat c n).
    apply rstrip_repeat.
Qed.

(** X16.  Slashes at either end of [BASE_URL] change nothing: every
    request function behaves the same whether the base URL is given
    with or without them. *)
Theorem base_url_slashes_ignored (cfg : Config) (base : str) (m n : nat)
    (json_loads : str -> result json) (relative_url : str)
    (params headers : option loc) (body : bytes) (w : World) :
  let padded := repeat 47%N m ++ base ++ repeat 47%N n in
  auth_request_as_hmac (with_base_url cfg padded) relative_url params headers
    body w
  = auth_request_as_hmac (with_base_url cfg base) relative_url params headers
      body w
  /\ auth_request_as_url (with_base_url cfg padded) relative_url params
       headers body w
     = auth_request_as_url (with_base_url cfg base) relative_url params
         headers body w
  /\ ApiKey.do_get (with_base_url cfg padded) json_loads relative_url params
       headers w
     = ApiKey.do_get (with_base_url cfg base) json_loads relative_url params
         headers w.
Proof.
  intros padded.
  pose proof (strip_slashes 47 m n base) as Hs. fold padded in Hs.
  repeat split.
  - unfold auth_request_as_hmac, with_base_url.
    cbn [base_url auth_method dev_demo_key client_id hmac_secret_key].
    rewrite Hs. reflexivity.
  - unfold auth_request_as_url, with_base_url.
    cbn [base_url auth_method dev_demo_key client_id hmac_secret_key].
    rewrite Hs. reflexivity.
  - unfold ApiKey.do_get, with_base_url.
    cbn [base_url auth_method dev_demo_key client_id hmac_secret_key].
    rewrite Hs. reflexivity.
Qed.
